(** * sf-symbols-svg: glyph-to-canvas fitting, file naming and the batch driver

    A shallow embedding of [src/index.ts] (and of the two geometry helpers of
    [src/index.test.ts]) together with the properties stated about them.

    Conventions of the embedding.
    - A JavaScript string is a Rocq [string] read as a sequence of UTF-16 code
      units below 256 (one [ascii] per code unit).
    - A JavaScript [number] is an instance of the class [JsNumber]: the
      operations the program uses on numbers. Two instances are given,
      [binary64] (IEEE 754 doubles, what the runtime computes with) and
      [exactQ] (the same formulas over the rationals, without rounding).
    - A call into a library that may throw returns an [Exec]: a value or a
      thrown exception; [try]/[catch] is a match on it.
    - The file system is the list of [writeFile] calls performed, oldest
      first; a write always succeeds.
    - What the program prints on the console is left out. *)

From Stdlib Require Import ZArith QArith Qfield Lqa Lia Bool List String Ascii Floats.
From Stdlib Require Import DecimalString.
Import ListNotations.

Local Open Scope string_scope.
Local Open Scope list_scope.

(* ------------------------------------------------------------------ *)
(** ** Strings *)

Module JsString.

(** The double quote, line feed and carriage return as one-unit strings. *)
Definition quoteUnit : ascii := ascii_of_nat 34.
Definition lfUnit : ascii := ascii_of_nat 10.
Definition crUnit : ascii := ascii_of_nat 13.
Definition dq : string := String quoteUnit EmptyString.
Definition lf : string := String lfUnit EmptyString.

Definition between (lo hi : nat) (c : ascii) : bool :=
  let n := nat_of_ascii c in (lo <=? n)%nat && (n <=? hi)%nat.

Definition isUpperAZ (c : ascii) : bool := between 65 90 c.
Definition isLowerAZ (c : ascii) : bool := between 97 122 c.
Definition isDigit (c : ascii) : bool := between 48 57 c.
Definition isDot (c : ascii) : bool := (nat_of_ascii c =? 46)%nat.

(** Upper-case letters of the Latin-1 supplement: U+00C0..U+00DE but U+00D7. *)
Definition isLatin1Upper (c : ascii) : bool :=
  between 192 222 c && negb (nat_of_ascii c =? 215)%nat.

(** [String.prototype.toLowerCase] on one code unit below 256. *)
Definition toLowerCaseUnit (c : ascii) : ascii :=
  if isUpperAZ c || isLatin1Upper c then ascii_of_nat (nat_of_ascii c + 32) else c.

Fixpoint toLowerCase (s : string) : string :=
  match s with
  | EmptyString => EmptyString
  | String c r => String (toLowerCaseUnit c) (toLowerCase r)
  end.

(** The character class [[a-z0-9\.]] under the [i] flag: a code unit is in
    the class when its canonical (upper-cased) form is the one of a member;
    a code unit above 127 is never folded onto an ASCII one. *)
Definition inSafeClass (c : ascii) : bool :=
  isLowerAZ c || isUpperAZ c || isDigit c || isDot c.

(** The units a sanitized name is made of: a lower-case letter, a digit, a
    dot or an underscore. *)
Definition isSafeOutput (c : ascii) : bool :=
  isLowerAZ c || isDigit c || isDot c || Ascii.eqb c "_"%char.

(** [s.replace(/[^a-z0-9\.]/gi, underscore)]. *)
Fixpoint replaceUnsafe (s : string) : string :=
  match s with
  | EmptyString => EmptyString
  | String c r => String (if inSafeClass c then c else "_"%char) (replaceUnsafe r)
  end.

(** JavaScript truthiness of a string: the empty string is falsy. *)
Definition truthy (s : string) : bool :=
  match s with EmptyString => false | String _ _ => true end.

(** The units up to the next double quote; [None] when there is none. *)
Fixpoint untilQuote (s : string) : option string :=
  match s with
  | EmptyString => None
  | String c r =>
      if Ascii.eqb c quoteUnit then Some EmptyString
      else option_map (String c) (untilQuote r)
  end.

(** [s.match(re)] for the regular expression of [generateSymbolSvg] (the
    letter d, an equals sign, a quoted run of units other than a quote; flag
    [i]), reduced to its first capture group: the leftmost position at which
    [d] or [D], [=], a quote, units other than a quote and a closing quote
    can be read. *)
Fixpoint matchD (s : string) : option string :=
  match s with
  | EmptyString => None
  | String c r =>
      let here :=
        if Ascii.eqb c "d"%char || Ascii.eqb c "D"%char then
          match r with
          | String e (String q body) =>
              if Ascii.eqb e "="%char && Ascii.eqb q quoteUnit
              then untilQuote body else None
          | _ => None
          end
        else None in
      match here with
      | Some d => Some d
      | None => matchD r
      end
  end.

(** [s.split(/\r?\n/)], with the line read so far kept reversed in [cur]. *)
Fixpoint splitLinesFrom (cur : list ascii) (s : string) : list string :=
  match s with
  | EmptyString => [string_of_list_ascii (rev cur)]
  | String c r =>
      if Ascii.eqb c lfUnit then
        string_of_list_ascii (rev cur) :: splitLinesFrom [] r
      else if Ascii.eqb c crUnit then
        match r with
        | String c' r' =>
            if Ascii.eqb c' lfUnit then
              string_of_list_ascii (rev cur) :: splitLinesFrom [] r'
            else splitLinesFrom (c :: cur) r
        | EmptyString => splitLinesFrom (c :: cur) r
        end
      else splitLinesFrom (c :: cur) r
  end.

Definition splitLines (s : string) : list string := splitLinesFrom [] s.

(** [xs.indexOf(x)]: the first index holding [x], or [-1]. *)
Fixpoint indexOfFrom (i : Z) (x : string) (xs : list string) : Z :=
  match xs with
  | [] => (-1)%Z
  | y :: r => if String.eqb y x then i else indexOfFrom (i + 1)%Z x r
  end.

Definition indexOf (xs : list string) (x : string) : Z := indexOfFrom 0%Z x xs.

(** [xs[i]] for an index that is a non-negative integer. *)
Definition at_ {A : Type} (xs : list A) (i : Z) : option A :=
  if (i <? 0)%Z then None else nth_error xs (Z.to_nat i).

(** [xs.join(sep)] on strings. *)
Fixpoint join (sep : string) (xs : list string) : string :=
  match xs with
  | [] => EmptyString
  | [x] => x
  | x :: r => x ++ sep ++ join sep r
  end.

End JsString.

(* ------------------------------------------------------------------ *)
(** ** Numbers *)

(** The operations [index.ts] applies to a [number]. *)
Class JsNumber (num : Type) : Type := {
  num_zero : num;
  num_two : num;
  num_add : num -> num -> num;
  num_sub : num -> num -> num;
  num_mul : num -> num -> num;
  num_div : num -> num -> num;
  num_gt : num -> num -> bool
}.

Declare Scope jsnum_scope.
Delimit Scope jsnum_scope with js.
Notation "x + y" := (num_add x y) : jsnum_scope.
Notation "x - y" := (num_sub x y) : jsnum_scope.
Notation "x * y" := (num_mul x y) : jsnum_scope.
Notation "x / y" := (num_div x y) : jsnum_scope.
Notation "x >? y" := (num_gt x y) (at level 70, no associativity) : jsnum_scope.

(** IEEE 754 binary64, the arithmetic of the JavaScript runtime. *)
#[export] Instance binary64 : JsNumber float := {
  num_zero := 0%float;
  num_two := 2%float;
  num_add := PrimFloat.add;
  num_sub := PrimFloat.sub;
  num_mul := PrimFloat.mul;
  num_div := PrimFloat.div;
  num_gt := fun x y => PrimFloat.ltb y x
}.

(** The same operations over the rationals: no rounding and no infinities.
    A quotient by zero has no meaning there ([Qdiv] makes it zero): what is
    proved over [exactQ] assumes the divisors are not zero. *)
#[export] Instance exactQ : JsNumber Q := {
  num_zero := 0%Q;
  num_two := 2%Q;
  num_add := Qplus;
  num_sub := Qminus;
  num_mul := Qmult;
  num_div := Qdiv;
  num_gt := fun x y => negb (Qle_bool x y)
}.

(* ------------------------------------------------------------------ *)
(** ** Calls that may throw *)

(** The outcome of evaluating an expression: its value, or the exception it
    threw. *)
Inductive Exec (A : Type) : Type :=
| Ok (a : A)
| Thrown (e : string).

Arguments Ok {A} a.
Arguments Thrown {A} e.

Definition bindExec {A B : Type} (m : Exec A) (k : A -> Exec B) : Exec B :=
  match m with
  | Ok a => k a
  | Thrown e => Thrown e
  end.

Notation "x <- m ;; k" := (bindExec m (fun x => k))
  (at level 61, m at next level, right associativity).

(** [try { body } catch (error) { return null }]. *)
Definition catchNull {A : Type} (body : Exec (option A)) : option A :=
  match body with
  | Ok r => r
  | Thrown _ => None
  end.

(* ------------------------------------------------------------------ *)
(** ** The glyph outline provider (opentype.js), as the program sees it *)

Section Provider.

Context {num : Type}.

(** [path.getBoundingBox()]. *)
Record BoundingBox : Type := {
  x1 : num;
  y1 : num;
  x2 : num;
  y2 : num
}.

(** An [opentype.Path]: what [generateSymbolSvg] asks of it. A result the
    program tests for falsiness is an [option]. *)
Record Path : Type := {
  getBoundingBox : Exec (option BoundingBox);
  toSVG : nat -> Exec string
}.

(** An [opentype.Glyph]; the program only tests that there is one. *)
Record Glyph : Type := { glyph_index : nat }.

(** An [opentype.Font]. *)
Record Font : Type := {
  charToGlyphIndex : string -> Exec nat;
  glyphs_get : nat -> Exec (option Glyph);
  getPath : string -> num -> num -> num -> Exec (option Path)
}.

(** [GenerateSymbolOptions]. *)
Record GenerateSymbolOptions : Type := {
  fontSize : num;
  padding : num
}.

End Provider.

Arguments BoundingBox : clear implicits.
Arguments Path : clear implicits.
Arguments Font : clear implicits.
Arguments GenerateSymbolOptions : clear implicits.

(* ------------------------------------------------------------------ *)
(** ** The fit transform: lines 184-205 of [generateSymbolSvg] *)

Section Fit.

Context {num : Type} `{JsNumber num}.
Local Open Scope jsnum_scope.

Variable options : GenerateSymbolOptions num.
Variable bbox : BoundingBox num.

Definition symbolWidth : num := x2 bbox - x1 bbox.
Definition symbolHeight : num := y2 bbox - y1 bbox.

Definition availableWidth : num := fontSize options - padding options * num_two.
Definition availableHeight : num := fontSize options - padding options * num_two.

(** The two ratios the program compares. *)
Definition widthRatio : num := symbolWidth / availableWidth.
Definition heightRatio : num := symbolHeight / availableHeight.

Definition scale : num :=
  if widthRatio >? heightRatio
  then availableWidth / symbolWidth
  else availableHeight / symbolHeight.

Definition scaledWidth : num := symbolWidth * scale.
Definition scaledHeight : num := symbolHeight * scale.

Definition translateX : num :=
  (fontSize options - scaledWidth) / num_two - x1 bbox * scale.
Definition translateY : num :=
  (fontSize options - scaledHeight) / num_two - y1 bbox * scale.

Definition transformMatrix : list num :=
  [scale; num_zero; num_zero; scale; translateX; translateY].

End Fit.

(** [applyTransformToPoint] of [index.test.ts]: the image of a point under
    the matrix [[a, b, c, d, e, f]]. A matrix with fewer than six entries
    has undefined entries there; that case is [None] here. *)
Definition applyTransformToPoint {num : Type} `{JsNumber num}
    (x y : num) (matrix : list num) : option (num * num) :=
  match matrix with
  | a :: b :: c :: d :: e :: f :: _ =>
      Some ((a * x + c * y + e)%js, (b * x + d * y + f)%js)
  | _ => None
  end.

(* ------------------------------------------------------------------ *)
(** ** [generateSymbolSvg] *)

Definition PATH_PRECISION : nat := 2.

Section Generate.

Context {num : Type} `{JsNumber num}.

(** [Number.prototype.toString], as a template literal and [join] apply it. *)
Variable numberToString : num -> string.

(** The template literal [generateSymbolSvg] returns. *)
Definition svgDocument (size : num) (name : string) (matrix : list num)
    (dContent : string) : string :=
  let q := JsString.dq in
  let n := numberToString size in
  ("<svg xmlns=" ++ q ++ "http://www.w3.org/2000/svg" ++ q
   ++ " viewBox=" ++ q ++ "0 0 " ++ n ++ " " ++ n ++ q
   ++ " width=" ++ q ++ n ++ q ++ " height=" ++ q ++ n ++ q ++ ">" ++ JsString.lf
   ++ "  <title>" ++ name ++ "</title>" ++ JsString.lf
   ++ "  <path transform=" ++ q ++ "matrix("
   ++ JsString.join ", " (map numberToString matrix) ++ ")" ++ q
   ++ " d=" ++ q ++ dContent ++ q ++ " fill=" ++ q ++ "currentColor" ++ q ++ "/>"
   ++ JsString.lf ++ "</svg>")%string.

(** The body of the [try] block. *)
Definition generateSymbolSvgBody (font : Font num) (char name : string)
    (options : GenerateSymbolOptions num) : Exec (option string) :=
  glyphIndex <- charToGlyphIndex font char ;;
  if (glyphIndex =? 0)%nat then Ok None else
  glyph <- glyphs_get font glyphIndex ;;
  match glyph with
  | None => Ok None
  | Some _ =>
      path <- getPath font char num_zero num_zero (fontSize options) ;;
      match path with
      | None => Ok None
      | Some path =>
          bbox <- getBoundingBox path ;;
          match bbox with
          | None => Ok None
          | Some bbox =>
              let matrix := transformMatrix options bbox in
              pathElement <- toSVG path PATH_PRECISION ;;
              match JsString.matchD pathElement with
              | None => Ok None
              | Some dContent =>
                  Ok (Some (svgDocument (fontSize options) name matrix dContent))
              end
          end
      end
  end.

Definition generateSymbolSvg (font : Font num) (char name : string)
    (options : GenerateSymbolOptions num) : option string :=
  catchNull (generateSymbolSvgBody font char name options).

End Generate.

(* ------------------------------------------------------------------ *)
(** ** File names *)

Definition createSafeFilename (name : string) : string :=
  JsString.toLowerCase (JsString.replaceUnsafe name).

Definition createSvgFilename (name weight : string) : string :=
  let safeName := createSafeFilename name in
  if String.eqb weight "regular" then (safeName ++ ".svg")%string
  else (safeName ++ "-" ++ weight ++ ".svg")%string.

(* ------------------------------------------------------------------ *)
(** ** The icon filter list: lines 433-484 of [makeSvgs] *)

Section IconsList.

(** [fs.readFileSync(path, utf8)]. *)
Variable readFileSync : string -> Exec string.

(** One turn of the loop over [iconsList], on the pair
    [(filteredNames, filteredSymbols)]. The third array of the loop,
    [filteredNamesIndices], is filled and never read; it is left out. *)
Definition filterIcon (names symbolsData : list string)
    (acc : list string * list string) (iconName : string)
    : list string * list string :=
  let (filteredNames, filteredSymbols) := acc in
  let index := JsString.indexOf names iconName in
  if (index =? -1)%Z then acc
  else
    (filteredNames ++ [iconName],
     if (index <? Z.of_nat (List.length symbolsData))%Z then
       match JsString.at_ symbolsData index with
       | Some charItem =>
           if JsString.truthy charItem then filteredSymbols ++ [charItem]
           else filteredSymbols
       | None => filteredSymbols
       end
     else filteredSymbols).

Definition filterIcons (names symbolsData iconsList : list string)
    : list string * list string :=
  fold_left (filterIcon names symbolsData) iconsList ([], []).

(** The lines of the list file that are not empty. *)
Definition readIconsList (content : string) : list string :=
  filter JsString.truthy (JsString.splitLines content).

(** The names and codepoints the run goes on with. *)
Definition selectIcons (iconsListFileOption : option string)
    (names symbolsData : list string) : list string * list string :=
  match iconsListFileOption with
  | None => (names, symbolsData)
  | Some file =>
      if negb (JsString.truthy file) then (names, symbolsData)
      else
        match readFileSync file with
        | Thrown _ => (names, symbolsData)
        | Ok content =>
            let iconsList := readIconsList content in
            if (List.length iconsList =? 0)%nat then (names, symbolsData)
            else
              let (filteredNames, filteredSymbols) :=
                filterIcons names symbolsData iconsList in
              if (List.length filteredNames =? 0)%nat then (names, symbolsData)
              else (filteredNames, filteredSymbols)
        end
  end.

End IconsList.

(* ------------------------------------------------------------------ *)
(** ** The batch driver: lines 489-509 of [makeSvgs] *)

(** The files written so far: path and contents, oldest first. *)
Definition FileSystem : Type := list (string * string).

Definition writeFile (fs : FileSystem) (filePath contents : string) : FileSystem :=
  fs ++ [(filePath, contents)].

Section Batch.

Context {num : Type} `{JsNumber num}.
Variable numberToString : num -> string.

(** [path.join(dir, file)]. *)
Variable pathJoin : string -> string -> string.

(** A loaded font and the weight it was loaded for. *)
Record ValidFont : Type := {
  weight : string;
  font : Font num
}.

Variable outputDir : string.
Variable options : GenerateSymbolOptions num.

(** The loop over [validFonts] for one name and its character. *)
Fixpoint fontsLoop (name char : string) (validFonts : list ValidFont)
    (fs : FileSystem) : FileSystem :=
  match validFonts with
  | [] => fs
  | vf :: rest =>
      match generateSymbolSvg numberToString (font vf) char name options with
      | None => fontsLoop name char rest fs
      | Some svgContent =>
          if negb (JsString.truthy svgContent) then fontsLoop name char rest fs
          else
            let svgFilename := createSvgFilename name (weight vf) in
            let svgPath := pathJoin outputDir svgFilename in
            fontsLoop name char rest (writeFile fs svgPath svgContent)
      end
  end.

(** One turn of the loop over the names, at index [namesIndex]. *)
Definition nameTurn (names symbolsData : list string)
    (validFonts : list ValidFont) (namesIndex : nat) (fs : FileSystem)
    : FileSystem :=
  match nth_error names namesIndex with
  | None => fs
  | Some name =>
      if negb (JsString.truthy name) then fs
      else
        match nth_error symbolsData namesIndex with
        | None => fs
        | Some char =>
            if negb (JsString.truthy char) then fs
            else fontsLoop name char validFonts fs
        end
  end.

(** [for (namesIndex = ...; namesIndex < names.length; namesIndex++)], with
    [remaining] turns to go. *)
Fixpoint namesLoop (names symbolsData : list string)
    (validFonts : list ValidFont) (remaining namesIndex : nat)
    (fs : FileSystem) : FileSystem :=
  match remaining with
  | O => fs
  | S remaining' =>
      namesLoop names symbolsData validFonts remaining' (S namesIndex)
        (nameTurn names symbolsData validFonts namesIndex fs)
  end.

(** [makeSvgs] from the point where fonts and data files are loaded. *)
Definition makeSvgs (readFileSync : string -> Exec string)
    (iconsListFileOption : option string) (names symbolsData : list string)
    (validFonts : list ValidFont) (fs : FileSystem) : FileSystem :=
  let (names', symbolsData') :=
    selectIcons readFileSync iconsListFileOption names symbolsData in
  namesLoop names' symbolsData' validFonts (List.length names') 0 fs.

End Batch.

Arguments ValidFont : clear implicits.

(* ------------------------------------------------------------------ *)
(** ** The weight flag: lines 593-610 *)

Definition FONT_WEIGHTS : list string :=
  ["thin"; "ultraLight"; "light"; "regular"; "medium"; "semibold"; "bold";
   "heavy"; "black"].

(** The value of [weights] after the test for the special value. *)
Definition weights (flagsWeight : list string) : list string :=
  if (List.length flagsWeight =? 1)%nat
     && match nth_error flagsWeight 0 with
        | Some w => String.eqb (JsString.toLowerCase w) "all"
        | None => false
        end
  then FONT_WEIGHTS
  else flagsWeight.

(* ------------------------------------------------------------------ *)
(** ** What the loops are compared with *)

Section Reference.

Context {num : Type} `{JsNumber num}.
Variable numberToString : num -> string.
Variable pathJoin : string -> string -> string.
Variable outputDir : string.
Variable options : GenerateSymbolOptions num.

(** The ways in which a font has no outline to offer for a character: the
    character is not in the font, there is no glyph, path or bounding box,
    the [d] attribute is not found, or one of the calls throws. *)
Inductive Unavailable (font : Font num) (char : string) : Prop :=
| NotInFont :
    charToGlyphIndex font char = Ok 0%nat -> Unavailable font char
| LookupThrows (e : string) :
    charToGlyphIndex font char = Thrown e -> Unavailable font char
| NoGlyph (i : nat) :
    charToGlyphIndex font char = Ok i ->
    glyphs_get font i = Ok None -> Unavailable font char
| GlyphThrows (i : nat) (e : string) :
    charToGlyphIndex font char = Ok i ->
    glyphs_get font i = Thrown e -> Unavailable font char
| NoPath (i : nat) (g : option Glyph) :
    charToGlyphIndex font char = Ok i -> glyphs_get font i = Ok g ->
    getPath font char num_zero num_zero (fontSize options) = Ok None ->
    Unavailable font char
| PathThrows (i : nat) (g : option Glyph) (e : string) :
    charToGlyphIndex font char = Ok i -> glyphs_get font i = Ok g ->
    getPath font char num_zero num_zero (fontSize options) = Thrown e ->
    Unavailable font char
| NoBox (i : nat) (g : option Glyph) (p : Path num) :
    charToGlyphIndex font char = Ok i -> glyphs_get font i = Ok g ->
    getPath font char num_zero num_zero (fontSize options) = Ok (Some p) ->
    getBoundingBox p = Ok None -> Unavailable font char
| BoxThrows (i : nat) (g : option Glyph) (p : Path num) (e : string) :
    charToGlyphIndex font char = Ok i -> glyphs_get font i = Ok g ->
    getPath font char num_zero num_zero (fontSize options) = Ok (Some p) ->
    getBoundingBox p = Thrown e -> Unavailable font char
| ToSvgThrows (i : nat) (g : option Glyph) (p : Path num)
    (b : option (BoundingBox num)) (e : string) :
    charToGlyphIndex font char = Ok i -> glyphs_get font i = Ok g ->
    getPath font char num_zero num_zero (fontSize options) = Ok (Some p) ->
    getBoundingBox p = Ok b ->
    toSVG p PATH_PRECISION = Thrown e -> Unavailable font char
| NoPathData (i : nat) (g : option Glyph) (p : Path num)
    (b : option (BoundingBox num)) (pathElement : string) :
    charToGlyphIndex font char = Ok i -> glyphs_get font i = Ok g ->
    getPath font char num_zero num_zero (fontSize options) = Ok (Some p) ->
    getBoundingBox p = Ok b ->
    toSVG p PATH_PRECISION = Ok pathElement ->
    JsString.matchD pathElement = None -> Unavailable font char.

(** The file one name, character and font give rise to, if any. *)
Definition pairOutput (name char : string) (vf : ValidFont num)
    : list (string * string) :=
  match generateSymbolSvg numberToString (font vf) char name options with
  | Some svgContent =>
      if JsString.truthy svgContent
      then [(pathJoin outputDir (createSvgFilename name (weight vf)), svgContent)]
      else []
  | None => []
  end.

(** The files one index of the name list gives rise to. *)
Definition turnOutput (names symbolsData : list string)
    (validFonts : list (ValidFont num)) (namesIndex : nat)
    : list (string * string) :=
  match nth_error names namesIndex, nth_error symbolsData namesIndex with
  | Some name, Some char =>
      if JsString.truthy name && JsString.truthy char
      then flat_map (pairOutput name char) validFonts
      else []
  | _, _ => []
  end.

End Reference.

(** A name of the list file is matched when the name list holds it. *)
Definition isMatched (names : list string) (iconName : string) : bool :=
  existsb (String.eqb iconName) names.

(** The codepoint kept for a matched name: the one at its index in the name
    list when there is one and it is not empty. *)
Definition codepointOf (names symbolsData : list string) (iconName : string)
    : list string :=
  match JsString.at_ symbolsData (JsString.indexOf names iconName) with
  | Some charItem => if JsString.truthy charItem then [charItem] else []
  | None => []
  end.

(* ------------------------------------------------------------------ *)
(** ** Inputs used in the examples *)

Module Examples.

#[local] Set Warnings "-inexact-float".

Definition box {num : Type} (a b c d : num) : BoundingBox num :=
  {| x1 := a; y1 := b; x2 := c; y2 := d |}.

Definition canvas {num : Type} (size pad : num) : GenerateSymbolOptions num :=
  {| fontSize := size; padding := pad |}.

(** The default canvas: size 24, padding 2. *)
Definition canvas24 : GenerateSymbolOptions float := canvas 24%float 2%float.
Definition canvas24Q : GenerateSymbolOptions Q := canvas 24%Q 2%Q.

Definition decimal (z : Z) : string := NilZero.string_of_uint (N.to_uint (Z.to_N z)).

Fixpoint zeros (n : nat) : string :=
  match n with
  | O => EmptyString
  | S n' => String "0" (zeros n')
  end.

(** How [num / den] compares with [s * 10 ^ p]. *)
Definition compareDecimal (num den s p : Z) : comparison :=
  if (0 <=? p)%Z then (num ?= s * 10 ^ p * den)%Z
  else (num * 10 ^ (- p) ?= s * den)%Z.

(** The least [n], from [n] on, with [num / den] below [10 ^ n]. *)
Fixpoint decimalExponent (fuel : nat) (num den n : Z) : Z :=
  match fuel with
  | O => n
  | S fuel' =>
      match compareDecimal num den 1 n with
      | Lt => n
      | _ => decimalExponent fuel' num den (n + 1)%Z
      end
  end.

(** Whether [s * 10 ^ p] reads back as the double whose neighbours are
    half-way at [lo / den] and [hi / den]; the ends count when the mantissa
    is even. *)
Definition inside (lo hi den : Z) (closed : bool) (s p : Z) : bool :=
  match compareDecimal lo den s p with
  | Lt => true
  | Eq => closed
  | Gt => false
  end
  && match compareDecimal hi den s p with
     | Gt => true
     | Eq => closed
     | Lt => false
     end.

(** The fewest digits [s], from [k] digits on, with [s * 10 ^ (n - k)]
    reading back as the double [mid / den]; of two such [s] the one closer
    to the double, and the even one when they are as close. *)
Fixpoint shortest (fuel : nat) (lo mid hi den : Z) (closed : bool)
    (n k : Z) : Z * Z :=
  match fuel with
  | O => (0%Z, n)
  | S fuel' =>
      let p := (n - k)%Z in
      let below :=
        if (0 <=? p)%Z then (mid / (10 ^ p * den))%Z
        else (mid * 10 ^ (- p) / den)%Z in
      let above := (below + 1)%Z in
      let pick :=
        match inside lo hi den closed below p,
              inside lo hi den closed above p with
        | true, true =>
            match compareDecimal (2 * mid) den (below + above) p with
            | Lt => Some below
            | Gt => Some above
            | Eq => Some (if Z.even below then below else above)
            end
        | true, false => Some below
        | false, true => Some above
        | false, false => None
        end in
      match pick with
      | Some s =>
          if (s =? 10 ^ k)%Z then ((10 ^ (k - 1))%Z, (n + 1)%Z) else (s, n)
      | None => shortest fuel' lo mid hi den closed n (k + 1)%Z
      end
  end.

(** The digits [digits] with the decimal point after [n] of them, written
    as [Number::toString] writes them: in full when [n] is between -5 and
    21, with an exponent otherwise. *)
Definition formatDigits (digits : string) (n : Z) : string :=
  let k := Z.of_nat (String.length digits) in
  if ((-5 <=? n) && (n <=? 21))%Z then
    if (k <=? n)%Z then (digits ++ zeros (Z.to_nat (n - k)))%string
    else if (0 <? n)%Z then
      (String.substring 0 (Z.to_nat n) digits ++ "."
       ++ String.substring (Z.to_nat n) (Z.to_nat (k - n)) digits)%string
    else ("0." ++ zeros (Z.to_nat (- n)) ++ digits)%string
  else
    let e := (n - 1)%Z in
    let exponent :=
      ((if (0 <? e)%Z then "+" else "-") ++ decimal (Z.abs e))%string in
    if (k =? 1)%Z then (digits ++ "e" ++ exponent)%string
    else (String.substring 0 1 digits ++ "."
          ++ String.substring 1 (Z.to_nat (k - 1)) digits
          ++ "e" ++ exponent)%string.

(** [Number.prototype.toString] on a double: [Number::toString] of
    ECMA-262 for the radix 10, which prints the shortest decimal that reads
    back as the value, with the last digit chosen as the standard
    recommends. The value [m * 2 ^ e] is [mid / den]; seventeen digits tell
    any double, so the search ends. *)
Definition numberToString64 (x : float) : string :=
  match Prim2SF x with
  | S754_nan => "NaN"
  | S754_infinity s => if s then "-Infinity" else "Infinity"
  | S754_zero _ => "0"
  | S754_finite s m e =>
      let up := (2 ^ Z.max 0 e)%Z in
      let den := (4 * 2 ^ Z.max 0 (- e))%Z in
      let mid := (4 * Zpos m * up)%Z in
      let narrow := ((Zpos m =? 2 ^ 52) && (-1074 <? e))%Z in
      let lo := (mid - (if narrow then 1 else 2) * up)%Z in
      let hi := (mid + 2 * up)%Z in
      let start := ((Z.log2 mid - Z.log2 den - 1) * 30103 / 100000 - 1)%Z in
      let n := decimalExponent 8 mid den start in
      let '(digits, n') := shortest 17 lo mid hi den (Z.even (Zpos m)) n 1 in
      ((if s then "-" else EmptyString)
       ++ formatDigits (decimal digits) n')%string
  end.

(** [path.join] of a plain directory name and a file name. *)
Definition joinPlain (dir file : string) : string := (dir ++ "/" ++ file)%string.

(** The element [toSVG] returns for path data [d]. *)
Definition pathElementOf (d : string) : string :=
  ("<path d=" ++ JsString.dq ++ d ++ JsString.dq ++ "/>")%string.

(** A font with a glyph for every character: the outline of a character has
    the bounding box [b] and the path data made by [d] from the character. *)
Definition fontOf {num : Type} (b : BoundingBox num) (d : string -> string)
    : Font num :=
  {| charToGlyphIndex := fun _ => Ok 1%nat;
     glyphs_get := fun i => Ok (Some {| glyph_index := i |});
     getPath := fun char _ _ _ =>
       Ok (Some {| getBoundingBox := Ok (Some b);
                   toSVG := fun _ => Ok (pathElementOf (d char)) |}) |}.

(** A font without any of the characters. *)
Definition emptyFont {num : Type} : Font num :=
  {| charToGlyphIndex := fun _ => Ok 0%nat;
     glyphs_get := fun _ => Ok None;
     getPath := fun _ _ _ _ => Ok None |}.

(** A font whose lookups throw. *)
Definition brokenFont {num : Type} : Font num :=
  {| charToGlyphIndex := fun _ => Thrown "cmap";
     glyphs_get := fun _ => Thrown "glyf";
     getPath := fun _ _ _ _ => Thrown "glyf" |}.

(** A list file that is read, and one that is not there. *)
Definition fileWith (content : string) (path : string) : Exec string := Ok content.
Definition noFile (path : string) : Exec string := Thrown "ENOENT".

End Examples.

(* ------------------------------------------------------------------ *)
(** ** The data files: lines 422-431 of [makeSvgs] *)

Module DataFiles.

(** The content of [symbols.txt] is made of characters outside Latin-1,
    each of them two code units: it is modelled as the list of its UTF-16
    code units, a number each. *)
Definition CodeUnits : Type := list N.

(** The units the dot of a regular expression without the flags [s] and
    [u] does not match: line feed, carriage return, U+2028 and U+2029. *)
Definition isLineTerminator (u : N) : bool :=
  ((u =? 10) || (u =? 13) || (u =? 8232) || (u =? 8233))%N.

(** [content.match(/.{1,2}/g)], with the empty list for [null]: from the
    left, a unit the dot matches is taken together with the next one when
    the dot matches that too; a unit the dot does not match is passed
    over. *)
Fixpoint matchPairs (s : CodeUnits) : list CodeUnits :=
  match s with
  | [] => []
  | c :: r =>
      if isLineTerminator c then matchPairs r
      else
        match r with
        | c' :: r' =>
            if isLineTerminator c' then [c] :: matchPairs r
            else [c; c'] :: matchPairs r'
        | [] => [[c]]
        end
  end.

(** The test of the filter: the match is not the empty string. *)
Definition notEmpty (char : CodeUnits) : bool :=
  match char with
  | [] => false
  | _ :: _ => true
  end.

(** [symbolsData] as read from [symbols.txt]. *)
Definition readSymbols (content : CodeUnits) : list CodeUnits :=
  filter notEmpty (matchPairs content).

(** [names] as read from [names.txt]. *)
Definition readNames (content : string) : list string :=
  filter JsString.truthy (JsString.splitLines content).

End DataFiles.

(* ------------------------------------------------------------------ *)
(** ** Loading the fonts: [findFontFile] and lines 382-417 of [makeSvgs] *)

Module Fonts.

(** [String.prototype.toUpperCase] on one code unit below 256. The capital
    of the sharp s is two units; the capitals of the micro sign and of the y
    with diaeresis are above the units of the model, and are [None] here. *)
Definition toUpperCaseUnit (c : ascii) : option string :=
  let n := nat_of_ascii c in
  if JsString.isLowerAZ c then Some (String (ascii_of_nat (n - 32)) EmptyString)
  else if (n =? 223)%nat then Some "SS"
  else if (n =? 181)%nat || (n =? 255)%nat then None
  else if JsString.between 224 254 c && negb (n =? 247)%nat
       then Some (String (ascii_of_nat (n - 32)) EmptyString)
  else Some (String c EmptyString).

(** [weight.charAt(0).toUpperCase() + weight.slice(1)]. *)
Definition capitalize (weight : string) : option string :=
  match weight with
  | EmptyString => Some EmptyString
  | String c r => option_map (fun u => (u ++ r)%string) (toUpperCaseUnit c)
  end.

(** The file name [findFontFile] looks for. *)
Definition fontName (weight : string) : option string :=
  option_map (fun w => ("SF-Pro-Text-" ++ w ++ ".otf")%string) (capitalize weight).

Section Loading.

Context {num : Type}.

(** [path.join], [fileExists] and [opentype.load]. *)
Variable pathJoin : string -> string -> string.
Variable fileExists : string -> bool.
Variable load : string -> Exec (Font num).

(** [findFontFile]: the outer [None] is a weight whose capital is outside
    the model, the inner one the [null] of the source. *)
Definition findFontFile (fontsDir weight : string) : option (option string) :=
  option_map
    (fun name =>
       let fontPath := pathJoin fontsDir name in
       if fileExists fontPath then Some fontPath else None)
    (fontName weight).

(** The function mapped over [weights]: a font with its weight, or [null]
    when the file is not found (the test is [!fontPath]) or loading
    throws. *)
Definition loadWeight (fontsDir weight : string)
    : option (option (ValidFont num)) :=
  option_map
    (fun found =>
       match found with
       | None => None
       | Some fontPath =>
           if JsString.truthy fontPath then
             match load fontPath with
             | Ok f => Some {| weight := weight; font := f |}
             | Thrown _ => None
             end
           else None
       end)
    (findFontFile fontsDir weight).

(** [fonts.filter(item => !!item)] after [Promise.all]: the fonts in the
    order of the weights. [None] when a weight is outside the model. *)
Fixpoint loadFonts (fontsDir : string) (weights : list string)
    : option (list (ValidFont num)) :=
  match weights with
  | [] => Some []
  | w :: rest =>
      match loadWeight fontsDir w, loadFonts fontsDir rest with
      | Some item, Some more =>
          Some (match item with Some vf => vf :: more | None => more end)
      | _, _ => None
      end
  end.

(** The fonts the run goes on with, or the exception thrown when there is
    none. *)
Definition validFontsOrThrow (fontsDir : string) (weights : list string)
    : option (Exec (list (ValidFont num))) :=
  option_map
    (fun validFonts =>
       if (List.length validFonts =? 0)%nat
       then Thrown "No valid fonts were loaded. Please check the weights and font files."
       else Ok validFonts)
    (loadFonts fontsDir weights).

(** Whether the capital of the first unit of a weight is within the
    model. *)
Definition inModel (weight : string) : bool :=
  match capitalize weight with Some _ => true | None => false end.

(** Whether a weight has a font: its file is there, under a name that is
    not empty, and loads. *)
Definition loadable (fontsDir weight : string) : bool :=
  match fontName weight with
  | Some name =>
      fileExists (pathJoin fontsDir name)
      && JsString.truthy (pathJoin fontsDir name)
      && match load (pathJoin fontsDir name) with
         | Ok _ => true
         | Thrown _ => false
         end
  | None => false
  end.

End Loading.

End Fonts.

(* ------------------------------------------------------------------ *)
(** ** What the string functions are compared with *)

Module Reference.

(** Whether a string holds the unit [c]. *)
Fixpoint hasUnit (c : ascii) (s : string) : bool :=
  match s with
  | EmptyString => false
  | String u r => Ascii.eqb u c || hasUnit c r
  end.

(** The number of units [c] of a string. *)
Fixpoint countUnit (c : ascii) (s : string) : nat :=
  match s with
  | EmptyString => O
  | String u r => (if Ascii.eqb u c then 1 else 0) + countUnit c r
  end.

(** The string with every carriage return that stands before a line feed
    taken out. *)
Fixpoint dropCrBeforeLf (s : string) : string :=
  match s with
  | EmptyString => EmptyString
  | String c r =>
      if Ascii.eqb c JsString.crUnit then
        match r with
        | String c' _ =>
            if Ascii.eqb c' JsString.lfUnit then dropCrBeforeLf r
            else String c (dropCrBeforeLf r)
        | EmptyString => String c EmptyString
        end
      else String c (dropCrBeforeLf r)
  end.

(** The units of a text without those the dot does not match. *)
Fixpoint withoutTerminators (s : DataFiles.CodeUnits) : DataFiles.CodeUnits :=
  match s with
  | [] => []
  | c :: r =>
      if DataFiles.isLineTerminator c then withoutTerminators r
      else c :: withoutTerminators r
  end.

(** One or two units the dot of a regular expression matches. *)
Definition isPiece (piece : DataFiles.CodeUnits) : Prop :=
  (exists c, piece = [c] /\ DataFiles.isLineTerminator c = false)
  \/ (exists c c', piece = [c; c']
                   /\ DataFiles.isLineTerminator c = false
                   /\ DataFiles.isLineTerminator c' = false).

(** Whether every unit of a string is one a sanitized name is made of. *)
Fixpoint allSafeOutput (s : string) : bool :=
  match s with
  | EmptyString => true
  | String c r => JsString.isSafeOutput c && allSafeOutput r
  end.

(** The box whose corners are the images of the corners of [bbox] under
    the transform computed for it, as [applyTransformToPoint] gives them. *)
Definition imageBox {num : Type} `{JsNumber num}
    (options : GenerateSymbolOptions num) (bbox : BoundingBox num)
    : BoundingBox num :=
  {| x1 := (scale options bbox * x1 bbox + num_zero * y1 bbox
            + translateX options bbox)%js;
     y1 := (num_zero * x1 bbox + scale options bbox * y1 bbox
            + translateY options bbox)%js;
     x2 := (scale options bbox * x2 bbox + num_zero * y2 bbox
            + translateX options bbox)%js;
     y2 := (num_zero * x2 bbox + scale options bbox * y2 bbox
            + translateY options bbox)%js |}.

End Reference.

(* ------------------------------------------------------------------ *)
(** ** Proof steps *)

(** Unfolds the fit formulas down to the operations of [exactQ]. *)
Ltac unfold_fit :=
  unfold transformMatrix, translateX, translateY, scaledWidth, scaledHeight,
    scale, widthRatio, heightRatio, availableWidth, availableHeight,
    symbolWidth, symbolHeight in *;
  cbn [num_zero num_two num_add num_sub num_mul num_div num_gt exactQ] in *.

(* ================================================================== *)
(** * Properties *)

(* ------------------------------------------------------------------ *)
(** ** The string functions on examples *)

Example matchD_path_element :
  JsString.matchD (Examples.pathElementOf "M0 0L10 10Z") = Some "M0 0L10 10Z".
Proof. reflexivity. Qed.

Example matchD_no_attribute : JsString.matchD "<path/>" = None.
Proof. reflexivity. Qed.

Example splitLines_mixed :
  JsString.splitLines
    ("a" ++ JsString.lf ++ JsString.lf ++ "b"
     ++ String JsString.crUnit JsString.lf ++ "c")%string
  = ["a"; EmptyString; "b"; "c"].
Proof. reflexivity. Qed.

Example readIconsList_drops_empty_lines :
  readIconsList ("a" ++ JsString.lf ++ JsString.lf ++ "b" ++ JsString.lf)%string
  = ["a"; "b"].
Proof. reflexivity. Qed.

Example indexOf_examples :
  JsString.indexOf ["a"; "b"; "c"] "c" = 2%Z
  /\ JsString.indexOf ["a"; "b"; "c"] "d" = (-1)%Z.
Proof. split; reflexivity. Qed.

Example toLowerCase_example : JsString.toLowerCase "UltraLight" = "ultralight".
Proof. reflexivity. Qed.

(** The printer of doubles on values a matrix can hold: integers, a
    rounded quotient, a small and a large value, an infinity and the
    value that is not a number. *)
Example numberToString64_examples :
  Examples.numberToString64 2 = "2"
  /\ Examples.numberToString64 (1 / 10) = "0.1"
  /\ Examples.numberToString64 (20 / 3) = "6.666666666666667"
  /\ Examples.numberToString64 (77 * (20 / 77)) = "19.999999999999996"
  /\ Examples.numberToString64 (-(26 / 3)) = "-8.666666666666666"
  /\ Examples.numberToString64 (3 / 20000000) = "1.5e-7"
  /\ Examples.numberToString64 (1 / 1000000) = "0.000001"
  /\ Examples.numberToString64 0x1p60 = "1152921504606847000"
  /\ Examples.numberToString64 0x1p70 = "1.1805916207174113e+21"
  /\ Examples.numberToString64 0x1p-1074 = "5e-324"
  /\ Examples.numberToString64 (1 / 0) = "Infinity"
  /\ Examples.numberToString64 (0 / 0) = "NaN".
Proof. vm_compute. repeat split. Qed.

(* ------------------------------------------------------------------ *)
(** ** File names *)

Module FilenameFacts.
Import JsString.

Lemma get_toLowerCase (s : string) (i : nat) :
  String.get i (toLowerCase s) = option_map toLowerCaseUnit (String.get i s).
Proof.
  revert i; induction s as [|c r IH]; intros [|i]; simpl; auto.
Qed.

Lemma get_replaceUnsafe (s : string) (i : nat) :
  String.get i (replaceUnsafe s)
  = option_map (fun c => if inSafeClass c then c else "_"%char) (String.get i s).
Proof.
  revert i; induction s as [|c r IH]; intros [|i]; simpl; auto.
Qed.

Lemma length_createSafeFilename (name : string) :
  String.length (createSafeFilename name) = String.length name.
Proof.
  unfold createSafeFilename.
  induction name as [|c r IH]; simpl; congruence.
Qed.

(** What one code unit of a name becomes. *)
Lemma safe_unit_cases (c : ascii) :
  let c' := toLowerCaseUnit (if inSafeClass c then c else "_"%char) in
  (isUpperAZ c = true -> c' = ascii_of_nat (nat_of_ascii c + 32))
  /\ (isLowerAZ c || isDigit c || isDot c = true -> c' = c)
  /\ (inSafeClass c = false -> c' = "_"%char).
Proof.
  destruct c as [[] [] [] [] [] [] [] []]; vm_compute;
    repeat split; intros; congruence.
Qed.

Lemma safe_unit_output (c : ascii) :
  isSafeOutput (toLowerCaseUnit (if inSafeClass c then c else "_"%char)) = true.
Proof.
  destruct c as [[] [] [] [] [] [] [] []]; vm_compute; reflexivity.
Qed.

Lemma get_createSafeFilename (name : string) (i : nat) :
  String.get i (createSafeFilename name)
  = option_map (fun c => toLowerCaseUnit (if inSafeClass c then c else "_"%char))
      (String.get i name).
Proof.
  unfold createSafeFilename.
  rewrite get_toLowerCase, get_replaceUnsafe.
  destruct (String.get i name); reflexivity.
Qed.

End FilenameFacts.

(** C6, counterexample: the name [Moon.Stars] keeps its dot; the file is
    [moon.stars.svg], not [moon_stars.svg]. *)
Lemma moon_stars_keeps_dot :
  createSvgFilename "Moon.Stars" "regular" = "moon.stars.svg"
  /\ String.eqb (createSvgFilename "Moon.Stars" "regular") "moon_stars.svg" = false
  /\ String.eqb (createSvgFilename "Moon.Stars" "bold") "moon_stars-bold.svg" = false.
Proof. repeat split. Qed.

(** C6, as amended: the file name of [Moon.Stars] is [moon.stars.svg] for
    the weight [regular] and [moon.stars-bold.svg] for [bold]; sanitizing a
    name keeps its length and, unit by unit, lower-cases a letter, keeps a
    lower-case letter, a digit or a dot, and puts an underscore for any other
    unit. *)
Theorem createSvgFilename_moon_stars :
  createSvgFilename "Moon.Stars" "regular" = "moon.stars.svg"
  /\ createSvgFilename "Moon.Stars" "bold" = "moon.stars-bold.svg"
  /\ (forall name, String.length (createSafeFilename name) = String.length name)
  /\ (forall name i c, String.get i name = Some c ->
        exists c', String.get i (createSafeFilename name) = Some c'
          /\ (JsString.isUpperAZ c = true ->
                c' = ascii_of_nat (nat_of_ascii c + 32))
          /\ (JsString.isLowerAZ c || JsString.isDigit c || JsString.isDot c = true ->
                c' = c)
          /\ (JsString.inSafeClass c = false -> c' = "_"%char)).
Proof.
  split; [reflexivity|]. split; [reflexivity|].
  split; [apply FilenameFacts.length_createSafeFilename|].
  intros name i c Hget.
  rewrite FilenameFacts.get_createSafeFilename, Hget; simpl.
  eexists; split; [reflexivity|].
  apply FilenameFacts.safe_unit_cases.
Qed.

(** C7, counterexample: the weight goes into the file name as it is given:
    [ultraLight] keeps its capital, and a weight with a slash keeps the
    slash. *)
Lemma weight_suffix_is_verbatim :
  createSvgFilename "star" "ultraLight" = "star-ultraLight.svg"
  /\ String.eqb (createSvgFilename "star" "ultraLight") "star-ultralight.svg" = false
  /\ createSvgFilename "star" "Semi/Bold" = "star-Semi/Bold.svg".
Proof. repeat split. Qed.

(** C7, as amended: the file name is the sanitized icon name followed by
    [.svg] when the weight is exactly [regular], and by a hyphen, the weight
    as given (neither sanitized nor lower-cased) and [.svg] for any other
    weight. Only the name is sanitized: the sanitized name has the length of
    the name and, unit by unit, a capital letter is lower-cased, a
    lower-case letter, a digit or a dot is kept, and any other unit becomes
    an underscore; every unit is of one of these three kinds, so the
    sanitized name has only lower-case letters, digits, dots and
    underscores. *)
Theorem createSvgFilename_shape (name weight : string) :
  (weight = "regular" ->
     createSvgFilename name weight = (createSafeFilename name ++ ".svg")%string)
  /\ (weight <> "regular" ->
     createSvgFilename name weight
     = (createSafeFilename name ++ "-" ++ weight ++ ".svg")%string)
  /\ String.length (createSafeFilename name) = String.length name
  /\ (forall i c, String.get i (createSafeFilename name) = Some c ->
        JsString.isSafeOutput c = true)
  /\ (forall i c, String.get i name = Some c ->
        exists c', String.get i (createSafeFilename name) = Some c'
          /\ (JsString.isUpperAZ c = true ->
                c' = ascii_of_nat (nat_of_ascii c + 32))
          /\ (JsString.isLowerAZ c || JsString.isDigit c || JsString.isDot c
              = true -> c' = c)
          /\ (JsString.inSafeClass c = false -> c' = "_"%char))
  /\ (forall c,
        JsString.isUpperAZ c = true
        \/ JsString.isLowerAZ c || JsString.isDigit c || JsString.isDot c
           = true
        \/ JsString.inSafeClass c = false).
Proof.
  unfold createSvgFilename.
  split; [intros ->; reflexivity|].
  split.
  { intros Hne. apply String.eqb_neq in Hne. rewrite Hne. reflexivity. }
  split; [apply FilenameFacts.length_createSafeFilename|].
  split.
  { intros i c. rewrite FilenameFacts.get_createSafeFilename.
    destruct (String.get i name) as [u|]; simpl; [|discriminate].
    intros [= <-]. apply FilenameFacts.safe_unit_output. }
  split.
  { intros i c Hget.
    rewrite FilenameFacts.get_createSafeFilename, Hget; simpl.
    eexists; split; [reflexivity|].
    apply FilenameFacts.safe_unit_cases. }
  intro c. unfold JsString.inSafeClass.
  destruct (JsString.isUpperAZ c); [left; reflexivity|].
  destruct (JsString.isLowerAZ c); [right; left; reflexivity|].
  destruct (JsString.isDigit c); [right; left; reflexivity|].
  destruct (JsString.isDot c); [right; left; reflexivity|].
  right; right; reflexivity.
Qed.

(* ------------------------------------------------------------------ *)
(** ** The weight flag *)

(** C10: the special value expands to the nine weights exactly when the
    flag list has one element that lower-cases to [all]; any other list,
    such as [all] together with [bold], is passed on as it is. *)
Theorem weights_all_sentinel :
  FONT_WEIGHTS
  = ["thin"; "ultraLight"; "light"; "regular"; "medium"; "semibold"; "bold";
     "heavy"; "black"]
  /\ List.length FONT_WEIGHTS = 9%nat
  /\ (forall w, JsString.toLowerCase w = "all" -> weights [w] = FONT_WEIGHTS)
  /\ (forall w, JsString.toLowerCase w <> "all" -> weights [w] = [w])
  /\ (forall ws, List.length ws <> 1%nat -> weights ws = ws)
  /\ weights ["all"] = FONT_WEIGHTS
  /\ weights ["ALL"] = FONT_WEIGHTS
  /\ weights ["All"] = FONT_WEIGHTS
  /\ weights ["all"; "bold"] = ["all"; "bold"]
  /\ weights ["bold"; "all"] = ["bold"; "all"].
Proof.
  split; [reflexivity|]. split; [reflexivity|].
  split.
  { intros w Hw. unfold weights; simpl. rewrite Hw. reflexivity. }
  split.
  { intros w Hw. unfold weights; simpl.
    apply String.eqb_neq in Hw. rewrite Hw. reflexivity. }
  split.
  { intros ws Hlen. unfold weights.
    apply Nat.eqb_neq in Hlen. rewrite Hlen. reflexivity. }
  repeat split.
Qed.

(* ------------------------------------------------------------------ *)
(** ** The fit transform in exact arithmetic *)

Module ExactFit.

Local Open Scope Q_scope.

Lemma half_mul (q : Q) : q / 2 == q * (1 # 2).
Proof. field. Qed.

Section WithInput.

Variable options : GenerateSymbolOptions Q.
Variable bbox : BoundingBox Q.

Hypothesis width_pos : x1 bbox < x2 bbox.
Hypothesis height_pos : y1 bbox < y2 bbox.
Hypothesis room : padding options * 2 < fontSize options.

Lemma symbolWidth_pos : 0 < symbolWidth bbox.
Proof. unfold_fit; lra. Qed.

Lemma symbolHeight_pos : 0 < symbolHeight bbox.
Proof. unfold_fit; lra. Qed.

Lemma available_pos : 0 < availableWidth options.
Proof. unfold_fit; lra. Qed.

(** The comparison of the two ratios is the comparison of the two sizes. *)
Lemma ratio_gt_iff :
  (widthRatio options bbox >? heightRatio options bbox)%js = true
  <-> symbolHeight bbox < symbolWidth bbox.
Proof.
  pose proof available_pos as HA.
  unfold widthRatio, heightRatio, availableHeight.
  cbn [num_div num_gt exactQ].
  rewrite negb_true_iff, <- not_true_iff_false, Qle_bool_iff.
  assert (Hinv : 0 < / availableWidth options)
    by (apply Qinv_lt_0_compat; exact HA).
  unfold Qdiv. split; intro Hc.
  - apply Qnot_le_lt in Hc. apply Qmult_lt_r in Hc; assumption.
  - apply Qlt_not_le. apply Qmult_lt_r; assumption.
Qed.

Lemma scale_width_limited :
  symbolHeight bbox < symbolWidth bbox ->
  scale options bbox == availableWidth options / symbolWidth bbox.
Proof.
  intro Hc. apply ratio_gt_iff in Hc.
  unfold scale. rewrite Hc. reflexivity.
Qed.

Lemma scale_height_limited :
  symbolWidth bbox <= symbolHeight bbox ->
  scale options bbox == availableHeight options / symbolHeight bbox.
Proof.
  intro Hc.
  assert (Hf : (widthRatio options bbox >? heightRatio options bbox)%js = false).
  { apply not_true_iff_false. rewrite ratio_gt_iff. apply Qle_not_lt, Hc. }
  unfold scale. rewrite Hf. reflexivity.
Qed.

Lemma scale_pos : 0 < scale options bbox.
Proof.
  pose proof symbolWidth_pos. pose proof symbolHeight_pos.
  pose proof available_pos.
  destruct (Qlt_le_dec (symbolHeight bbox) (symbolWidth bbox)) as [Hc|Hc].
  - rewrite (scale_width_limited Hc). apply Qlt_shift_div_l; [assumption|].
    rewrite Qmult_0_l. assumption.
  - rewrite (scale_height_limited Hc).
    change (availableHeight options) with (availableWidth options).
    apply Qlt_shift_div_l; [assumption|].
    rewrite Qmult_0_l. assumption.
Qed.

Lemma scaled_width_limited :
  symbolHeight bbox < symbolWidth bbox ->
  scaledWidth options bbox == availableWidth options
  /\ scaledHeight options bbox <= availableWidth options.
Proof.
  intro Hc. pose proof symbolWidth_pos as HW. pose proof available_pos as HA.
  unfold scaledWidth, scaledHeight. cbn [num_mul exactQ].
  rewrite (scale_width_limited Hc).
  set (w := symbolWidth bbox) in *. set (h := symbolHeight bbox) in *.
  set (a := availableWidth options) in *. clearbody w h a.
  split.
  - field. lra.
  - setoid_replace (h * (a / w)) with (a * (h / w)) by (field; lra).
    rewrite <- (Qmult_1_r a) at 2.
    apply Qmult_le_l; [exact HA|].
    apply Qle_shift_div_r; lra.
Qed.

Lemma scaled_height_limited :
  symbolWidth bbox <= symbolHeight bbox ->
  scaledHeight options bbox == availableWidth options
  /\ scaledWidth options bbox <= availableWidth options.
Proof.
  intro Hc. pose proof symbolHeight_pos as HH. pose proof available_pos as HA.
  unfold scaledWidth, scaledHeight. cbn [num_mul exactQ].
  rewrite (scale_height_limited Hc).
  change (availableHeight options) with (availableWidth options).
  set (w := symbolWidth bbox) in *. set (h := symbolHeight bbox) in *.
  set (a := availableWidth options) in *. clearbody w h a.
  split.
  - field. lra.
  - setoid_replace (w * (a / h)) with (a * (w / h)) by (field; lra).
    rewrite <- (Qmult_1_r a) at 2.
    apply Qmult_le_l; [exact HA|].
    apply Qle_shift_div_r; lra.
Qed.

Lemma scaled_fit :
  scaledWidth options bbox <= availableWidth options
  /\ scaledHeight options bbox <= availableWidth options.
Proof.
  destruct (Qlt_le_dec (symbolHeight bbox) (symbolWidth bbox)) as [Hc|Hc].
  - destruct (scaled_width_limited Hc) as [E L]. split; [rewrite E; lra | exact L].
  - destruct (scaled_height_limited Hc) as [E L]. split; [exact L | rewrite E; lra].
Qed.

End WithInput.
End ExactFit.

(** The transform sends a point [(x, y)] to
    [(scale * x + translateX, scale * y + translateY)], up to the two
    products by zero of the matrix. *)
Lemma applyTransformToPoint_matrix (options : GenerateSymbolOptions Q)
    (bbox : BoundingBox Q) (x y : Q) :
  applyTransformToPoint x y (transformMatrix options bbox)
  = Some ((scale options bbox * x + 0 * y + translateX options bbox)%Q,
          (0 * x + scale options bbox * y + translateY options bbox)%Q).
Proof. reflexivity. Qed.

Section ExactImage.

Local Open Scope Q_scope.

Variable options : GenerateSymbolOptions Q.
Variable bbox : BoundingBox Q.
Hypothesis width_pos : x1 bbox < x2 bbox.
Hypothesis height_pos : y1 bbox < y2 bbox.
Hypothesis padding_nonneg : 0 <= padding options.
Hypothesis room : padding options * 2 < fontSize options.

(** The image of a point of the bounding box lies in the canvas. *)
Lemma image_in_canvas (x y : Q) :
  x1 bbox <= x <= x2 bbox -> y1 bbox <= y <= y2 bbox ->
  0 <= scale options bbox * x + 0 * y + translateX options bbox <= fontSize options
  /\ 0 <= 0 * x + scale options bbox * y + translateY options bbox <= fontSize options.
Proof.
  intros [Hx1 Hx2] [Hy1 Hy2].
  pose proof (ExactFit.scale_pos options bbox width_pos height_pos room) as Hs.
  destruct (ExactFit.scaled_fit options bbox width_pos height_pos room) as [Lw Lh].
  unfold translateX, translateY, scaledWidth, scaledHeight, symbolWidth,
    symbolHeight, availableWidth in *.
  cbn [num_zero num_two num_add num_sub num_mul num_div exactQ] in *.
  set (s := scale options bbox) in *. clearbody s.
  assert (Ex1 : s * x1 bbox <= s * x) by (apply Qmult_le_l; assumption).
  assert (Ex2 : s * x <= s * x2 bbox) by (apply Qmult_le_l; assumption).
  assert (Ey1 : s * y1 bbox <= s * y) by (apply Qmult_le_l; assumption).
  assert (Ey2 : s * y <= s * y2 bbox) by (apply Qmult_le_l; assumption).
  rewrite !ExactFit.half_mul.
  repeat split; lra.
Qed.

(** The margins left and right of the image of the box are equal, and so
    are the margins above and below. *)
Lemma image_centered :
  (scale options bbox * x1 bbox + 0 * y1 bbox + translateX options bbox) - 0
  == fontSize options
     - (scale options bbox * x2 bbox + 0 * y2 bbox + translateX options bbox)
  /\ (0 * x1 bbox + scale options bbox * y1 bbox + translateY options bbox) - 0
     == fontSize options
        - (0 * x2 bbox + scale options bbox * y2 bbox + translateY options bbox).
Proof.
  unfold translateX, translateY, scaledWidth, scaledHeight, symbolWidth,
    symbolHeight.
  cbn [num_zero num_two num_add num_sub num_mul num_div exactQ].
  split; field.
Qed.

End ExactImage.

(* ------------------------------------------------------------------ *)
(** ** The fit transform: containment, limiting dimension, aspect ratio *)

#[local] Set Warnings "-inexact-float".

(** C1, counterexample: in binary64 the margins of the image differ by a
    rounding error (canvas 24, padding 2, box 1 by 3: 8.6666666666666661 on
    the left, 8.6666666666666679 on the right), and with padding 0 the image
    can leave the canvas (canvas 7, box 1 by 25: the image of the corner
    [(0, 0)] has a negative ordinate). *)
Lemma binary64_margins_differ :
  applyTransformToPoint 0%float 0%float
    (transformMatrix Examples.canvas24 (Examples.box 0 0 1 3)%float)
  = Some (8.6666666666666661, 2)%float
  /\ applyTransformToPoint 1%float 3%float
       (transformMatrix Examples.canvas24 (Examples.box 0 0 1 3)%float)
     = Some (15.333333333333332, 22)%float
  /\ (8.6666666666666661 - 0 =? 24 - 15.333333333333332)%float = false
  /\ applyTransformToPoint 0%float 0%float
       (transformMatrix (Examples.canvas 7 0)%float (Examples.box 0 0 1 25)%float)
     = Some (3.3599999999999999, -4.4408920985006262e-16)%float
  /\ (-4.4408920985006262e-16 <? 0)%float = true.
Proof. vm_compute. repeat split. Qed.

(** C1, as amended: with the formulas evaluated in exact arithmetic, for a
    box of positive width and height, a canvas size above zero, a padding of
    at least zero and less than half the canvas size, the transform sends
    every point of the box into the square from 0 to the canvas size, and
    the image of the box has equal margins left and right, and equal margins
    above and below. *)
Theorem transform_fits_canvas_exact (options : GenerateSymbolOptions Q)
    (bbox : BoundingBox Q) :
  (x1 bbox < x2 bbox)%Q -> (y1 bbox < y2 bbox)%Q ->
  (0 < fontSize options)%Q -> (0 <= padding options)%Q ->
  (padding options * 2 < fontSize options)%Q ->
  (forall x y : Q,
      (x1 bbox <= x <= x2 bbox)%Q -> (y1 bbox <= y <= y2 bbox)%Q ->
      exists x' y' : Q,
        applyTransformToPoint x y (transformMatrix options bbox) = Some (x', y')
        /\ (0 <= x' <= fontSize options)%Q /\ (0 <= y' <= fontSize options)%Q)
  /\ (exists lx ly hx hy : Q,
        applyTransformToPoint (x1 bbox) (y1 bbox) (transformMatrix options bbox)
        = Some (lx, ly)
        /\ applyTransformToPoint (x2 bbox) (y2 bbox) (transformMatrix options bbox)
           = Some (hx, hy)
        /\ (lx - 0 == fontSize options - hx)%Q
        /\ (ly - 0 == fontSize options - hy)%Q).
Proof.
  intros Hw Hh _ Hp Hroom. split.
  - intros x y Hx Hy.
    rewrite applyTransformToPoint_matrix. do 2 eexists.
    split; [reflexivity|].
    apply image_in_canvas; assumption.
  - rewrite !applyTransformToPoint_matrix. do 4 eexists.
    split; [reflexivity|]. split; [reflexivity|].
    apply image_centered.
Qed.

(** The hypotheses hold on the default canvas and the box of the first
    worked example. *)
Lemma transform_fits_canvas_exact_witness :
  (0 < 100)%Q /\ (0 < 50)%Q /\ (0 < 24)%Q /\ (0 <= 2)%Q /\ (2 * 2 < 24)%Q
  /\ exists x' y' : Q,
       applyTransformToPoint 100%Q 50%Q
         (transformMatrix Examples.canvas24Q (Examples.box 0 0 100 50)%Q)
       = Some (x', y')
       /\ (0 <= x' <= 24)%Q /\ (0 <= y' <= 24)%Q.
Proof.
  do 5 (split; [first [reflexivity | discriminate]|]).
  refine (proj1 (transform_fits_canvas_exact Examples.canvas24Q
                   (Examples.box 0 0 100 50)%Q _ _ _ _ _) 100%Q 50%Q _ _);
    vm_compute; first [reflexivity | discriminate | split; discriminate].
Defined.

(** C2, counterexample: in binary64 the limiting dimension does not always
    fill the padded area exactly. Canvas 24, padding 2, box 77 by 50: the
    width is limiting and the scaled width is 19.999999999999996, not 20. *)
Lemma binary64_limiting_dimension_rounded :
  (widthRatio Examples.canvas24 (Examples.box 0 0 77 50)%float
   >? heightRatio Examples.canvas24 (Examples.box 0 0 77 50)%float)%js = true
  /\ availableWidth Examples.canvas24 = 20%float
  /\ scaledWidth Examples.canvas24 (Examples.box 0 0 77 50)%float
     = 19.999999999999996%float
  /\ (scaledWidth Examples.canvas24 (Examples.box 0 0 77 50)%float
      =? availableWidth Examples.canvas24)%float = false.
Proof. vm_compute. repeat split. Qed.

(** C2, as amended: the scale is chosen as the claim says (the test is the
    strict comparison of the width ratio with the height ratio; the scale is
    the available width over the width when it holds and the available
    height over the height otherwise); with the formulas evaluated in exact
    arithmetic, the limiting dimension times the scale is the canvas size
    less twice the padding, and the other dimension times the scale is at
    most that. *)
Theorem limiting_dimension_exact (options : GenerateSymbolOptions Q)
    (bbox : BoundingBox Q) :
  (x1 bbox < x2 bbox)%Q -> (y1 bbox < y2 bbox)%Q ->
  (0 < fontSize options)%Q -> (padding options * 2 < fontSize options)%Q ->
  (availableWidth options == fontSize options - padding options * 2)%Q
  /\ (availableHeight options == fontSize options - padding options * 2)%Q
  /\ ((widthRatio options bbox >? heightRatio options bbox)%js = true
      <-> (heightRatio options bbox < widthRatio options bbox)%Q)
  /\ ((widthRatio options bbox >? heightRatio options bbox)%js = true ->
        (scale options bbox == availableWidth options / symbolWidth bbox)%Q
        /\ (scaledWidth options bbox == fontSize options - padding options * 2)%Q
        /\ (scaledHeight options bbox <= fontSize options - padding options * 2)%Q)
  /\ ((widthRatio options bbox >? heightRatio options bbox)%js = false ->
        (scale options bbox == availableHeight options / symbolHeight bbox)%Q
        /\ (scaledHeight options bbox == fontSize options - padding options * 2)%Q
        /\ (scaledWidth options bbox <= fontSize options - padding options * 2)%Q).
Proof.
  intros Hw Hh _ Hroom.
  split; [reflexivity|]. split; [reflexivity|].
  split.
  { cbn [num_gt exactQ].
    rewrite negb_true_iff, <- not_true_iff_false, Qle_bool_iff.
    split; [apply Qnot_le_lt | apply Qlt_not_le]. }
  split.
  - intro Hc. split; [unfold scale; rewrite Hc; reflexivity|].
    apply ExactFit.scaled_width_limited; try assumption.
    apply (ExactFit.ratio_gt_iff options bbox Hroom). exact Hc.
  - intro Hc. split; [unfold scale; rewrite Hc; reflexivity|].
    apply ExactFit.scaled_height_limited; try assumption.
    apply Qnot_lt_le. intro Hlt.
    apply (ExactFit.ratio_gt_iff options bbox Hroom) in Hlt. congruence.
Qed.

(** On the default canvas and the box 100 by 50 the width is limiting. *)
Lemma limiting_dimension_exact_witness :
  (0 < 100)%Q /\ (0 < 50)%Q /\ (0 < 24)%Q /\ (2 * 2 < 24)%Q
  /\ (scaledWidth Examples.canvas24Q (Examples.box 0 0 100 50)%Q == 24 - 2 * 2)%Q
  /\ (scaledHeight Examples.canvas24Q (Examples.box 0 0 100 50)%Q <= 24 - 2 * 2)%Q.
Proof.
  do 4 (split; [reflexivity|]).
  refine (proj2 (proj1 (proj2 (proj2 (proj2
            (limiting_dimension_exact Examples.canvas24Q
               (Examples.box 0 0 100 50)%Q _ _ _ _)))) _));
    vm_compute; reflexivity.
Defined.

(** C5, counterexample: when twice the padding is the canvas size the
    scale is zero and the quotient of the scaled dimensions is not a number
    (canvas 4, padding 2, box 10 by 10), and in binary64 the two quotients
    can differ by a rounding error (canvas 24, padding 2, box 1 by 3). *)
Lemma binary64_aspect_ratio_differs :
  scale (Examples.canvas 4 2)%float (Examples.box 0 0 10 10)%float = 0%float
  /\ PrimFloat.is_nan
       (scaledWidth (Examples.canvas 4 2)%float (Examples.box 0 0 10 10)%float
        / scaledHeight (Examples.canvas 4 2)%float (Examples.box 0 0 10 10)%float)%float
     = true
  /\ (symbolWidth (Examples.box 0 0 10 10)%float
      / symbolHeight (Examples.box 0 0 10 10)%float)%float = 1%float
  /\ (scaledWidth Examples.canvas24 (Examples.box 0 0 1 3)%float
      / scaledHeight Examples.canvas24 (Examples.box 0 0 1 3)%float)%float
     = 0.33333333333333337%float
  /\ (symbolWidth (Examples.box 0 0 1 3)%float
      / symbolHeight (Examples.box 0 0 1 3)%float)%float
     = 0.33333333333333331%float.
Proof. vm_compute. repeat split. Qed.

(** C5, as amended: for a box of positive width and height and a canvas
    size other than twice the padding, with the formulas evaluated in exact
    arithmetic, the scaled width over the scaled height is the width over
    the height. *)
Theorem aspect_ratio_exact (options : GenerateSymbolOptions Q)
    (bbox : BoundingBox Q) :
  (x1 bbox < x2 bbox)%Q -> (y1 bbox < y2 bbox)%Q ->
  ~ (fontSize options == padding options * 2)%Q ->
  (scaledWidth options bbox / scaledHeight options bbox
   == symbolWidth bbox / symbolHeight bbox)%Q.
Proof.
  intros Hw Hh Hne.
  assert (HW : ~ (x2 bbox - x1 bbox == 0)%Q) by lra.
  assert (HH : ~ (y2 bbox - y1 bbox == 0)%Q) by lra.
  assert (HA : ~ (fontSize options - padding options * 2 == 0)%Q) by lra.
  assert (Hs : ~ (scale options bbox == 0)%Q).
  { unfold scale.
    destruct (widthRatio options bbox >? heightRatio options bbox)%js;
      unfold_fit; intro Hz;
      apply Qmult_integral in Hz; destruct Hz as [Hz|Hz];
      try (apply HA; exact Hz).
    - assert (0 < / (x2 bbox - x1 bbox))%Q by (apply Qinv_lt_0_compat; lra).
      lra.
    - assert (0 < / (y2 bbox - y1 bbox))%Q by (apply Qinv_lt_0_compat; lra).
      lra. }
  unfold scaledWidth, scaledHeight, symbolWidth, symbolHeight.
  cbn [num_sub num_mul exactQ].
  set (s := scale options bbox) in *. clearbody s.
  field. repeat split; assumption.
Qed.

(** The default canvas and the box 100 by 50. *)
Lemma aspect_ratio_exact_witness :
  (0 < 100)%Q /\ (0 < 50)%Q /\ ~ (24 == 2 * 2)%Q
  /\ (scaledWidth Examples.canvas24Q (Examples.box 0 0 100 50)%Q
      / scaledHeight Examples.canvas24Q (Examples.box 0 0 100 50)%Q
      == (100 - 0) / (50 - 0))%Q.
Proof.
  split; [reflexivity|]. split; [reflexivity|]. split; [discriminate|].
  refine (aspect_ratio_exact Examples.canvas24Q (Examples.box 0 0 100 50)%Q _ _ _);
    vm_compute; first [reflexivity | discriminate].
Defined.

(** C4: the two worked examples, in binary64 as the program computes them
    and in exact arithmetic. Canvas 24, padding 2, box from (0, 0) to
    (100, 50): scale 0.2, translations 2 and 7; box from (0, 0) to (10, 10):
    scale 2, translations 2 and 2. *)
Theorem worked_examples :
  (scale Examples.canvas24 (Examples.box 0 0 100 50)%float = 0.2%float
   /\ translateX Examples.canvas24 (Examples.box 0 0 100 50)%float = 2%float
   /\ translateY Examples.canvas24 (Examples.box 0 0 100 50)%float = 7%float
   /\ transformMatrix Examples.canvas24 (Examples.box 0 0 100 50)%float
      = [0.2; 0; 0; 0.2; 2; 7]%float)
  /\ (scale Examples.canvas24 (Examples.box 0 0 10 10)%float = 2%float
      /\ translateX Examples.canvas24 (Examples.box 0 0 10 10)%float = 2%float
      /\ translateY Examples.canvas24 (Examples.box 0 0 10 10)%float = 2%float
      /\ transformMatrix Examples.canvas24 (Examples.box 0 0 10 10)%float
         = [2; 0; 0; 2; 2; 2]%float)
  /\ (availableWidth Examples.canvas24 = 20%float
      /\ widthRatio Examples.canvas24 (Examples.box 0 0 100 50)%float = 5%float
      /\ heightRatio Examples.canvas24 (Examples.box 0 0 100 50)%float = 2.5%float
      /\ scaledWidth Examples.canvas24 (Examples.box 0 0 100 50)%float = 20%float
      /\ scaledHeight Examples.canvas24 (Examples.box 0 0 100 50)%float = 10%float)
  /\ ((scale Examples.canvas24Q (Examples.box 0 0 100 50)%Q == 2 # 10)%Q
      /\ (translateX Examples.canvas24Q (Examples.box 0 0 100 50)%Q == 2)%Q
      /\ (translateY Examples.canvas24Q (Examples.box 0 0 100 50)%Q == 7)%Q)
  /\ ((scale Examples.canvas24Q (Examples.box 0 0 10 10)%Q == 2)%Q
      /\ (translateX Examples.canvas24Q (Examples.box 0 0 10 10)%Q == 2)%Q
      /\ (translateY Examples.canvas24Q (Examples.box 0 0 10 10)%Q == 2)%Q).
Proof. vm_compute. repeat split. Qed.

(* ------------------------------------------------------------------ *)
(** ** When [generateSymbolSvg] returns null *)

Section Generation.

Context {num : Type} `{JsNumber num}.
Variable numberToString : num -> string.
Variable options : GenerateSymbolOptions num.

(** With every call answering and the path data found, the document is
    returned, whatever the bounding box. *)
Lemma generateSymbolSvg_available (font : Font num) (char name : string)
    (i : nat) (g : Glyph) (p : Path num) (b : BoundingBox num)
    (pathElement dContent : string) :
  charToGlyphIndex font char = Ok i -> i <> 0%nat ->
  glyphs_get font i = Ok (Some g) ->
  getPath font char num_zero num_zero (fontSize options) = Ok (Some p) ->
  getBoundingBox p = Ok (Some b) ->
  toSVG p PATH_PRECISION = Ok pathElement ->
  JsString.matchD pathElement = Some dContent ->
  generateSymbolSvg numberToString font char name options
  = Some (svgDocument numberToString (fontSize options) name
            (transformMatrix options b) dContent).
Proof.
  intros Hi Hnz Hg Hp Hb Hs Hd.
  unfold generateSymbolSvg, generateSymbolSvgBody.
  rewrite Hi; cbn [bindExec].
  apply Nat.eqb_neq in Hnz; rewrite Hnz.
  rewrite Hg; cbn [bindExec]. rewrite Hp; cbn [bindExec].
  rewrite Hb; cbn [bindExec]. rewrite Hs; cbn [bindExec].
  rewrite Hd. reflexivity.
Qed.

Lemma generateSymbolSvg_unavailable (font : Font num) (char name : string) :
  Unavailable options font char ->
  generateSymbolSvg numberToString font char name options = None.
Proof.
  unfold generateSymbolSvg, generateSymbolSvgBody.
  intros [Hi | e Hi | i Hi Hg | i e Hi Hg | i g Hi Hg Hp | i g e Hi Hg Hp
         | i g p Hi Hg Hp Hb | i g p e Hi Hg Hp Hb
         | i g p b e Hi Hg Hp Hb Hs | i g p b el Hi Hg Hp Hb Hs Hd];
    rewrite Hi; cbn [bindExec catchNull]; try reflexivity;
    destruct (i =? 0)%nat; try reflexivity;
    rewrite Hg; cbn [bindExec catchNull]; try reflexivity;
    destruct g; try reflexivity;
    rewrite Hp; cbn [bindExec catchNull]; try reflexivity;
    rewrite Hb; cbn [bindExec catchNull]; try reflexivity;
    destruct b; try reflexivity;
    rewrite Hs; cbn [bindExec catchNull]; try reflexivity;
    rewrite Hd; reflexivity.
Qed.

Lemma generateSymbolSvg_null_unavailable (font : Font num) (char name : string) :
  generateSymbolSvg numberToString font char name options = None ->
  Unavailable options font char.
Proof.
  unfold generateSymbolSvg, generateSymbolSvgBody.
  destruct (charToGlyphIndex font char) as [i|e] eqn:Hi; cbn [bindExec catchNull];
    [|intros _; eapply LookupThrows; eassumption].
  destruct (i =? 0)%nat eqn:Hz.
  { apply Nat.eqb_eq in Hz; subst i. intros _. apply NotInFont; assumption. }
  destruct (glyphs_get font i) as [g|e] eqn:Hg; cbn [bindExec catchNull];
    [|intros _; eapply GlyphThrows; eassumption].
  destruct g as [g|]; [|intros _; eapply NoGlyph; eassumption].
  destruct (getPath font char num_zero num_zero (fontSize options)) as [p|e] eqn:Hp;
    cbn [bindExec catchNull]; [|intros _; eapply PathThrows; eassumption].
  destruct p as [p|]; [|intros _; eapply NoPath; eassumption].
  destruct (getBoundingBox p) as [b|e] eqn:Hb; cbn [bindExec catchNull];
    [|intros _; eapply BoxThrows; eassumption].
  destruct b as [b|]; [|intros _; eapply NoBox; eassumption].
  destruct (toSVG p PATH_PRECISION) as [el|e] eqn:Hs; cbn [bindExec catchNull];
    [|intros _; eapply ToSvgThrows; eassumption].
  destruct (JsString.matchD el) as [d|] eqn:Hd; [discriminate|].
  intros _; eapply NoPathData; eassumption.
Qed.

End Generation.

(** C3, counterexample: a box of width zero is rendered like any other
    (canvas 24, padding 2, box from (0, 0) to (0, 10): scale 2), and for a
    box of width and height zero the document carries the quotient of a
    division by zero and values that are not numbers. *)
Lemma zero_size_box_is_rendered :
  generateSymbolSvg Examples.numberToString64
    (Examples.fontOf (Examples.box 0 0 0 10)%float (fun _ => "M0 0L0 10"))
    "x" "icon" Examples.canvas24
  = Some (svgDocument Examples.numberToString64 24%float "icon"
            [2; 0; 0; 2; 12; 2]%float "M0 0L0 10")
  /\ generateSymbolSvg Examples.numberToString64
       (Examples.fontOf (Examples.box 0 0 0 0)%float (fun _ => "M0 0"))
       "x" "icon" Examples.canvas24
     = Some (svgDocument Examples.numberToString64 24%float "icon"
               [infinity; 0; 0; infinity; nan; nan]%float "M0 0")
  /\ JsString.join ", "
       (map Examples.numberToString64
          (transformMatrix Examples.canvas24 (Examples.box 0 0 0 0)%float))
     = "Infinity, 0, 0, Infinity, NaN, NaN".
Proof. vm_compute. repeat split. Qed.

(** C3, as amended: the size of the bounding box plays no part in whether a
    document is produced. Generation yields no result exactly when the font
    has no outline to offer for the character (the character is not in the
    font, a glyph, path, bounding box or [d] attribute is missing, or a call
    throws); otherwise the document is produced with the transform of the
    box, be its width or height zero or not. *)
Theorem generateSymbolSvg_null_iff_unavailable {num : Type} `{JsNumber num}
    (numberToString : num -> string) (options : GenerateSymbolOptions num)
    (font : Font num) (char name : string) :
  (generateSymbolSvg numberToString font char name options = None
   <-> Unavailable options font char)
  /\ (forall (i : nat) (g : Glyph) (p : Path num) (b : BoundingBox num)
        (pathElement dContent : string),
        charToGlyphIndex font char = Ok i -> i <> 0%nat ->
        glyphs_get font i = Ok (Some g) ->
        getPath font char num_zero num_zero (fontSize options) = Ok (Some p) ->
        getBoundingBox p = Ok (Some b) ->
        toSVG p PATH_PRECISION = Ok pathElement ->
        JsString.matchD pathElement = Some dContent ->
        generateSymbolSvg numberToString font char name options
        = Some (svgDocument numberToString (fontSize options) name
                  (transformMatrix options b) dContent)).
Proof.
  split.
  - split.
    + apply generateSymbolSvg_null_unavailable.
    + apply generateSymbolSvg_unavailable.
  - intros. eapply generateSymbolSvg_available; eassumption.
Qed.

(* ------------------------------------------------------------------ *)
(** ** The batch driver *)

Section BatchFacts.

Context {num : Type} `{JsNumber num}.
Variable numberToString : num -> string.
Variable pathJoin : string -> string -> string.
Variable outputDir : string.
Variable options : GenerateSymbolOptions num.

(** The loop over the fonts appends what each font gives, in order. *)
Lemma fontsLoop_writes (name char : string) (validFonts : list (ValidFont num))
    (fs : FileSystem) :
  fontsLoop numberToString pathJoin outputDir options name char validFonts fs
  = fs ++ flat_map (pairOutput numberToString pathJoin outputDir options name char)
            validFonts.
Proof.
  revert fs; induction validFonts as [|vf rest IH]; intro fs; simpl.
  - symmetry; apply app_nil_r.
  - unfold pairOutput at 1.
    destruct (generateSymbolSvg numberToString (font vf) char name options)
      as [svgContent|]; [|apply IH].
    destruct (JsString.truthy svgContent); simpl; [|apply IH].
    rewrite IH. unfold writeFile. rewrite <- app_assoc. reflexivity.
Qed.

Lemma nameTurn_writes (names symbolsData : list string)
    (validFonts : list (ValidFont num)) (namesIndex : nat) (fs : FileSystem) :
  nameTurn numberToString pathJoin outputDir options names symbolsData
    validFonts namesIndex fs
  = fs ++ turnOutput numberToString pathJoin outputDir options names symbolsData
            validFonts namesIndex.
Proof.
  unfold nameTurn, turnOutput.
  destruct (nth_error names namesIndex) as [name|];
    [|symmetry; apply app_nil_r].
  destruct (nth_error symbolsData namesIndex) as [char|];
    destruct (JsString.truthy name); simpl;
    try (symmetry; apply app_nil_r).
  destruct (JsString.truthy char); simpl;
    [apply fontsLoop_writes | symmetry; apply app_nil_r].
Qed.

(** The loop over the names takes every turn, from [namesIndex] on. *)
Lemma namesLoop_writes (names symbolsData : list string)
    (validFonts : list (ValidFont num)) (remaining namesIndex : nat)
    (fs : FileSystem) :
  namesLoop numberToString pathJoin outputDir options names symbolsData
    validFonts remaining namesIndex fs
  = fs ++ flat_map
            (turnOutput numberToString pathJoin outputDir options names
               symbolsData validFonts)
            (seq namesIndex remaining).
Proof.
  revert namesIndex fs; induction remaining as [|k IH]; intros i fs; simpl.
  - symmetry; apply app_nil_r.
  - rewrite IH, nameTurn_writes, <- app_assoc. reflexivity.
Qed.

Lemma pairOutput_unavailable (name char : string) (vf : ValidFont num) :
  Unavailable options (font vf) char ->
  pairOutput numberToString pathJoin outputDir options name char vf = [].
Proof.
  intro Hu. unfold pairOutput.
  rewrite (generateSymbolSvg_unavailable numberToString options _ _ name Hu).
  reflexivity.
Qed.

Lemma fontsLoop_skips (name char : string) (before after : list (ValidFont num))
    (vf : ValidFont num) (fs : FileSystem) :
  Unavailable options (font vf) char ->
  fontsLoop numberToString pathJoin outputDir options name char
    (before ++ vf :: after) fs
  = fontsLoop numberToString pathJoin outputDir options name char
      (before ++ after) fs.
Proof.
  intro Hu. rewrite !fontsLoop_writes, !flat_map_app. simpl.
  rewrite (pairOutput_unavailable name char vf Hu). reflexivity.
Qed.

End BatchFacts.

(** C9: when the font has no outline to offer for a character (the
    character is not in the font, the glyph, path or bounding box is
    missing, or a call throws), generation returns null and does not throw;
    the loop over the fonts then writes nothing for that name and weight and
    goes on as if the font were not in the list; the loop over the names
    takes every turn, so the files written are those of all the pairs that
    yield a document, in order, added to the files there were. *)
Theorem unavailable_glyph_is_skipped {num : Type} `{JsNumber num}
    (numberToString : num -> string) (pathJoin : string -> string -> string)
    (outputDir : string) (options : GenerateSymbolOptions num) :
  (forall (font : Font num) (char name : string),
      Unavailable options font char ->
      generateSymbolSvg numberToString font char name options = None)
  /\ (forall (name char : string) (before after : list (ValidFont num))
        (vf : ValidFont num) (fs : FileSystem),
        Unavailable options (font vf) char ->
        pairOutput numberToString pathJoin outputDir options name char vf = []
        /\ fontsLoop numberToString pathJoin outputDir options name char
             (before ++ vf :: after) fs
           = fontsLoop numberToString pathJoin outputDir options name char
               (before ++ after) fs)
  /\ (forall (names symbolsData : list string)
        (validFonts : list (ValidFont num)) (fs : FileSystem),
        namesLoop numberToString pathJoin outputDir options names symbolsData
          validFonts (List.length names) 0 fs
        = fs ++ flat_map
                  (turnOutput numberToString pathJoin outputDir options names
                     symbolsData validFonts)
                  (seq 0 (List.length names)))
  /\ (forall (names symbolsData : list string) (namesIndex : nat)
        (name char : string) (validFonts : list (ValidFont num)),
        nth_error names namesIndex = Some name ->
        nth_error symbolsData namesIndex = Some char ->
        JsString.truthy name = true -> JsString.truthy char = true ->
        turnOutput numberToString pathJoin outputDir options names symbolsData
          validFonts namesIndex
        = flat_map (pairOutput numberToString pathJoin outputDir options name char)
            validFonts).
Proof.
  split; [intros; apply generateSymbolSvg_unavailable; assumption|].
  split.
  { intros; split;
      [apply pairOutput_unavailable | apply fontsLoop_skips]; assumption. }
  split; [intros; apply namesLoop_writes|].
  intros names symbolsData i name char validFonts Hn Hc Tn Tc.
  unfold turnOutput. rewrite Hn, Hc, Tn, Tc. reflexivity.
Qed.

Example emptyFont_unavailable :
  Unavailable Examples.canvas24 (@Examples.emptyFont float) "S".
Proof. apply NotInFont. reflexivity. Qed.

Example brokenFont_unavailable :
  Unavailable Examples.canvas24 (@Examples.brokenFont float) "S".
Proof. apply LookupThrows with (e := "cmap"). reflexivity. Qed.

(** An example of the batch: three fonts, of which the first lacks the
    character and the second throws; the file of the third is written. *)
Lemma batch_example :
  makeSvgs Examples.numberToString64 Examples.joinPlain "out" Examples.canvas24
    Examples.noFile None ["star"] ["S"]
    [ {| weight := "thin"; font := Examples.emptyFont |};
      {| weight := "regular"; font := Examples.brokenFont |};
      {| weight := "bold";
         font := Examples.fontOf (Examples.box 0 0 10 10)%float (fun c => c) |} ]
    []
  = [("out/star-bold.svg",
      svgDocument Examples.numberToString64 24%float "star"
        [2; 0; 0; 2; 2; 2]%float "S")].
Proof. vm_compute. reflexivity. Qed.

(* ------------------------------------------------------------------ *)
(** ** The icon filter list *)

Module IconsListFacts.
Import JsString.

Lemma indexOfFrom_present (i : Z) (x : string) (xs : list string) :
  In x xs ->
  (i <= indexOfFrom i x xs < i + Z.of_nat (List.length xs))%Z
  /\ nth_error xs (Z.to_nat (indexOfFrom i x xs - i)) = Some x.
Proof.
  revert i; induction xs as [|y r IH]; intros i Hin; [destruct Hin|].
  cbn [indexOfFrom List.length].
  destruct (String.eqb y x) eqn:E.
  - apply String.eqb_eq in E; subst y.
    rewrite Z.sub_diag. split; [lia | reflexivity].
  - apply String.eqb_neq in E.
    destruct Hin as [Hy|Hin]; [congruence|].
    destruct (IH (i + 1)%Z Hin) as [Hrange Hnth]. split; [lia|].
    replace (Z.to_nat (indexOfFrom (i + 1) x r - i))
      with (S (Z.to_nat (indexOfFrom (i + 1) x r - (i + 1)))) by lia.
    exact Hnth.
Qed.

Lemma isMatched_In (names : list string) (n : string) :
  isMatched names n = true <-> In n names.
Proof.
  unfold isMatched. rewrite existsb_exists. split.
  - intros [y [Hy E]]. apply String.eqb_eq in E. subst y. exact Hy.
  - intro Hin. exists n. split; [exact Hin | apply String.eqb_refl].
Qed.

Lemma indexOf_matched (names : list string) (n : string) :
  (indexOf names n =? -1)%Z = negb (isMatched names n).
Proof.
  destruct (isMatched names n) eqn:M; simpl.
  - apply isMatched_In in M.
    destruct (indexOfFrom_present 0 n names M) as [Hr _].
    unfold indexOf. apply Z.eqb_neq. lia.
  - destruct (indexOf names n =? -1)%Z eqn:E; [reflexivity|].
    apply Z.eqb_neq in E. exfalso.
    assert (Hin : In n names).
    { destruct (in_dec string_dec n names) as [Hin|Hout]; [exact Hin|].
      exfalso. apply E. unfold indexOf.
      clear E M. revert Hout. generalize 0%Z.
      induction names as [|y r IH]; intros i Hout; simpl; [reflexivity|].
      destruct (String.eqb y n) eqn:Ey.
      - apply String.eqb_eq in Ey. subst y. exfalso. apply Hout. left; reflexivity.
      - apply IH. intro Hin. apply Hout. right; exact Hin. }
    apply isMatched_In in Hin. congruence.
Qed.

(** What the loop adds for one matched name is [codepointOf]. *)
Lemma filterIcon_matched (names symbolsData : list string)
    (fnames fsymbols : list string) (n : string) :
  isMatched names n = true ->
  filterIcon names symbolsData (fnames, fsymbols) n
  = (fnames ++ [n], fsymbols ++ codepointOf names symbolsData n).
Proof.
  intro M. unfold filterIcon, codepointOf.
  rewrite indexOf_matched, M; simpl. f_equal.
  destruct (indexOf names n <? Z.of_nat (List.length symbolsData))%Z eqn:L.
  - destruct (at_ symbolsData (indexOf names n)) as [c|];
      [destruct (truthy c)|]; try reflexivity; symmetry; apply app_nil_r.
  - apply Z.ltb_ge in L.
    assert (at_ symbolsData (indexOf names n) = None) as ->.
    { unfold at_. destruct (indexOf names n <? 0)%Z; [reflexivity|].
      apply nth_error_None. lia. }
    symmetry; apply app_nil_r.
Qed.

Lemma filterIcon_unmatched (names symbolsData : list string)
    (acc : list string * list string) (n : string) :
  isMatched names n = false -> filterIcon names symbolsData acc n = acc.
Proof.
  intro M. unfold filterIcon. destruct acc as [fnames fsymbols].
  rewrite indexOf_matched, M. reflexivity.
Qed.

Lemma fold_filterIcon (names symbolsData iconsList fnames fsymbols : list string) :
  fold_left (filterIcon names symbolsData) iconsList (fnames, fsymbols)
  = (fnames ++ filter (isMatched names) iconsList,
     fsymbols ++ flat_map (codepointOf names symbolsData)
                   (filter (isMatched names) iconsList)).
Proof.
  revert fnames fsymbols; induction iconsList as [|n r IH]; intros;
    cbn [fold_left filter].
  - simpl. rewrite !app_nil_r. reflexivity.
  - destruct (isMatched names n) eqn:M.
    + rewrite (filterIcon_matched _ _ _ _ _ M), IH. simpl.
      rewrite <- !app_assoc. reflexivity.
    + rewrite (filterIcon_unmatched _ _ _ _ M). apply IH.
Qed.

Lemma filterIcons_eq (names symbolsData iconsList : list string) :
  filterIcons names symbolsData iconsList
  = (filter (isMatched names) iconsList,
     flat_map (codepointOf names symbolsData) (filter (isMatched names) iconsList)).
Proof. unfold filterIcons. rewrite fold_filterIcon. reflexivity. Qed.

End IconsListFacts.

(** C8, counterexample: with three names, two codepoints and a list file
    naming the third and the first name, the third name has no codepoint of
    its own and is processed with the codepoint of the first, and the first
    name is not processed at all. *)
Lemma filtered_codepoints_misaligned :
  selectIcons (Examples.fileWith ("c" ++ JsString.lf ++ "a")%string)
    (Some "list.txt") ["a"; "b"; "c"] ["AA"; "BB"]
  = (["c"; "a"], ["AA"])
  /\ JsString.at_ ["AA"; "BB"] (JsString.indexOf ["a"; "b"; "c"] "c") = None
  /\ JsString.at_ ["AA"; "BB"] (JsString.indexOf ["a"; "b"; "c"] "a") = Some "AA"
  /\ makeSvgs Examples.numberToString64 Examples.joinPlain "out" Examples.canvas24
       (Examples.fileWith ("c" ++ JsString.lf ++ "a")%string) (Some "list.txt")
       ["a"; "b"; "c"] ["AA"; "BB"]
       [ {| weight := "regular";
            font := Examples.fontOf (Examples.box 0 0 10 10)%float (fun c => c) |} ]
       []
     = [("out/c.svg",
         svgDocument Examples.numberToString64 24%float "c"
           [2; 0; 0; 2; 2; 2]%float "AA")].
Proof. vm_compute. repeat split. Qed.

(** C8, as amended: when the list file is read, a list without a non-empty
    line, or with no line found in the name list, leaves the names and
    codepoints as they are (all icons are processed); when a line is found,
    the names processed are the lines found in the name list, in the order
    of the file, and each of them goes with the codepoint at its index in
    the name list provided every one of them has a non-empty codepoint
    there. *)
Theorem icons_list_selection (readFileSync : string -> Exec string)
    (file content : string) (names symbolsData : list string) :
  JsString.truthy file = true ->
  readFileSync file = Ok content ->
  (forall line, In line (readIconsList content)
      <-> In line (JsString.splitLines content) /\ line <> EmptyString)
  /\ (readIconsList content = [] ->
        selectIcons readFileSync (Some file) names symbolsData
        = (names, symbolsData))
  /\ ((forall n, In n (readIconsList content) -> ~ In n names) ->
        selectIcons readFileSync (Some file) names symbolsData
        = (names, symbolsData))
  /\ ((exists n, In n (readIconsList content) /\ In n names) ->
        fst (selectIcons readFileSync (Some file) names symbolsData)
        = filter (isMatched names) (readIconsList content)
        /\ (forall n,
              In n (fst (selectIcons readFileSync (Some file) names symbolsData))
              <-> In n (readIconsList content) /\ In n names)
        /\ ((forall n, In n (readIconsList content) -> In n names ->
               exists c, JsString.at_ symbolsData (JsString.indexOf names n) = Some c
                         /\ JsString.truthy c = true) ->
            Forall2
              (fun n c => JsString.at_ symbolsData (JsString.indexOf names n) = Some c)
              (fst (selectIcons readFileSync (Some file) names symbolsData))
              (snd (selectIcons readFileSync (Some file) names symbolsData))))
  /\ (forall (num : Type) (N : JsNumber num) (numberToString : num -> string)
        (pathJoin : string -> string -> string) (outputDir : string)
        (options : GenerateSymbolOptions num)
        (validFonts : list (ValidFont num)) (fs : FileSystem),
        makeSvgs numberToString pathJoin outputDir options readFileSync
          (Some file) names symbolsData validFonts fs
        = namesLoop numberToString pathJoin outputDir options
            (fst (selectIcons readFileSync (Some file) names symbolsData))
            (snd (selectIcons readFileSync (Some file) names symbolsData))
            validFonts
            (List.length (fst (selectIcons readFileSync (Some file) names symbolsData)))
            0 fs).
Proof.
  intros Hfile Hread.
  assert (Hsel : selectIcons readFileSync (Some file) names symbolsData
                 = if (List.length (readIconsList content) =? 0)%nat
                   then (names, symbolsData)
                   else if (List.length (filter (isMatched names)
                                           (readIconsList content)) =? 0)%nat
                        then (names, symbolsData)
                        else (filter (isMatched names) (readIconsList content),
                              flat_map (codepointOf names symbolsData)
                                (filter (isMatched names) (readIconsList content)))).
  { unfold selectIcons. rewrite Hfile, Hread. cbn [negb].
    rewrite IconsListFacts.filterIcons_eq. reflexivity. }
  split.
  { intro line. unfold readIconsList. rewrite filter_In.
    split; intros [Hin T]; split; try exact Hin.
    - intros ->; discriminate.
    - destruct line; [congruence | reflexivity]. }
  split.
  { intro Hnil. rewrite Hsel, Hnil. reflexivity. }
  split.
  { intro Hnone. rewrite Hsel.
    destruct (List.length (readIconsList content) =? 0)%nat; [reflexivity|].
    replace (filter (isMatched names) (readIconsList content)) with (@nil string);
      [reflexivity|].
    symmetry. clear Hsel. revert Hnone.
    generalize (readIconsList content) as l.
    induction l as [|n r IH]; intro Hnone; [reflexivity|].
    cbn [filter].
    destruct (isMatched names n) eqn:M.
    - apply IconsListFacts.isMatched_In in M.
      exfalso. apply (Hnone n); [left; reflexivity | exact M].
    - apply IH. intros m Hm. apply Hnone. right; exact Hm. }
  split.
  { intros [n [Hin Hn]].
    assert (Hm : In n (filter (isMatched names) (readIconsList content))).
    { apply filter_In. split; [exact Hin|].
      apply IconsListFacts.isMatched_In; exact Hn. }
    assert (Hsel' : selectIcons readFileSync (Some file) names symbolsData
                    = (filter (isMatched names) (readIconsList content),
                       flat_map (codepointOf names symbolsData)
                         (filter (isMatched names) (readIconsList content)))).
    { rewrite Hsel.
      destruct (readIconsList content) as [|x r] eqn:El; [destruct Hin|].
      cbn [List.length Nat.eqb].
      destruct (filter (isMatched names) (x :: r)) as [|y t] eqn:Ef;
        [destruct Hm | reflexivity]. }
    rewrite Hsel'. cbn [fst snd].
    split; [reflexivity|]. split.
    - intro m. rewrite filter_In, IconsListFacts.isMatched_In. reflexivity.
    - clear Hsel Hsel' Hm Hin.
      generalize (readIconsList content) as l.
      induction l as [|x r IH]; intro Hcode; [constructor|].
      cbn [filter].
      destruct (isMatched names x) eqn:M.
      + cbn [flat_map].
        destruct (Hcode x (or_introl eq_refl)
                    (proj1 (IconsListFacts.isMatched_In names x) M))
          as [c [Hc Tc]].
        unfold codepointOf at 1. rewrite Hc, Tc. cbn [app].
        constructor; [exact Hc|].
        apply IH. intros m Hm'. apply Hcode. right; exact Hm'.
      + apply IH. intros m Hm'. apply Hcode. right; exact Hm'. }
  intros. unfold makeSvgs.
  destruct (selectIcons readFileSync (Some file) names symbolsData).
  reflexivity.
Qed.

(** A list file with one name of the name list and one that is not in it. *)
Lemma icons_list_selection_witness :
  JsString.truthy "list.txt" = true
  /\ Examples.fileWith ("b" ++ JsString.lf ++ "zz")%string "list.txt"
     = Ok ("b" ++ JsString.lf ++ "zz")%string
  /\ fst (selectIcons (Examples.fileWith ("b" ++ JsString.lf ++ "zz")%string)
            (Some "list.txt") ["a"; "b"] ["AA"; "BB"])
     = ["b"].
Proof.
  split; [reflexivity|]. split; [reflexivity|].
  refine (proj1 (proj1 (proj2 (proj2 (proj2
            (icons_list_selection
               (Examples.fileWith ("b" ++ JsString.lf ++ "zz")%string)
               "list.txt" ("b" ++ JsString.lf ++ "zz")%string
               ["a"; "b"] ["AA"; "BB"] eq_refl eq_refl)))) _)).
  exists "b". vm_compute. split; [left | right; left]; reflexivity.
Defined.

(* ================================================================== *)
(** * Further properties of the code *)

(* ------------------------------------------------------------------ *)
(** ** Sanitized names *)

Module SanitizeFacts.
Import JsString Reference.

Lemma safe_unit_fixed (c : ascii) :
  isSafeOutput c = true ->
  toLowerCaseUnit (if inSafeClass c then c else "_"%char) = c.
Proof.
  destruct c as [[] [] [] [] [] [] [] []]; vm_compute; congruence.
Qed.

Lemma allSafeOutput_createSafeFilename (name : string) :
  allSafeOutput (createSafeFilename name) = true.
Proof.
  unfold createSafeFilename.
  induction name as [|c r IH]; [reflexivity|].
  cbn [replaceUnsafe toLowerCase allSafeOutput].
  rewrite FilenameFacts.safe_unit_output. exact IH.
Qed.

Lemma createSafeFilename_fixed (name : string) :
  allSafeOutput name = true -> createSafeFilename name = name.
Proof.
  unfold createSafeFilename.
  induction name as [|c r IH]; [reflexivity|].
  cbn [replaceUnsafe toLowerCase allSafeOutput].
  intro Hs. apply andb_true_iff in Hs. destruct Hs as [Hc Hr].
  rewrite (safe_unit_fixed c Hc), (IH Hr). reflexivity.
Qed.

End SanitizeFacts.

(** X1: sanitizing a name twice is sanitizing it once, and the names that
    sanitizing leaves as they are are exactly those made of lower-case
    letters, digits, dots and underscores. *)
Theorem createSafeFilename_idempotent (name : string) :
  createSafeFilename (createSafeFilename name) = createSafeFilename name
  /\ (createSafeFilename name = name <-> Reference.allSafeOutput name = true)
  /\ (forall weight,
        createSvgFilename (createSafeFilename name) weight
        = createSvgFilename name weight).
Proof.
  assert (Hidem : createSafeFilename (createSafeFilename name)
                  = createSafeFilename name).
  { apply SanitizeFacts.createSafeFilename_fixed,
      SanitizeFacts.allSafeOutput_createSafeFilename. }
  split; [exact Hidem|]. split.
  - split.
    + intro Hfix. rewrite <- Hfix.
      apply SanitizeFacts.allSafeOutput_createSafeFilename.
    + apply SanitizeFacts.createSafeFilename_fixed.
  - intro weight. unfold createSvgFilename. rewrite Hidem. reflexivity.
Qed.

(* ------------------------------------------------------------------ *)
(** ** File names do not collide across names and weights *)

Module FilenameInjective.
Import JsString Reference.

Lemma length_app (s t : string) :
  String.length (s ++ t) = (String.length s + String.length t)%nat.
Proof. induction s as [|c r IH]; simpl; congruence. Qed.

Lemma app_inv_tail (s1 s2 t : string) :
  (s1 ++ t = s2 ++ t)%string -> s1 = s2.
Proof.
  revert s2; induction s1 as [|c r IH]; intros [|c' r'] E; simpl in E.
  - reflexivity.
  - exfalso. apply (f_equal String.length) in E.
    simpl in E. rewrite length_app in E. lia.
  - exfalso. apply (f_equal String.length) in E.
    simpl in E. rewrite length_app in E. lia.
  - injection E as -> E. f_equal. apply IH. exact E.
Qed.

(** The two shapes of what follows the sanitized name. *)
Lemma createSvgFilename_suffix (name weight : string) :
  exists sfx,
    createSvgFilename name weight = (createSafeFilename name ++ sfx)%string
    /\ ((weight = "regular" /\ sfx = ".svg")
        \/ (weight <> "regular" /\ sfx = ("-" ++ weight ++ ".svg")%string)).
Proof.
  unfold createSvgFilename.
  destruct (String.eqb weight "regular") eqn:E.
  - apply String.eqb_eq in E. exists ".svg". split; [reflexivity|]. left; auto.
  - apply String.eqb_neq in E. eexists. split; [reflexivity|]. right; auto.
Qed.

(** A string of safe units followed by a suffix of one of the two shapes is
    read back in one way only. *)
Lemma safe_prefix_unique (a b s1 s2 : string) :
  allSafeOutput a = true -> allSafeOutput b = true ->
  (s1 = ".svg" \/ exists w, s1 = ("-" ++ w ++ ".svg")%string) ->
  (s2 = ".svg" \/ exists w, s2 = ("-" ++ w ++ ".svg")%string) ->
  (a ++ s1 = b ++ s2)%string -> a = b /\ s1 = s2.
Proof.
  assert (Hhead : forall (c : ascii) (r s t : string),
             isSafeOutput c = true ->
             (t = ".svg" \/ exists w, t = ("-" ++ w ++ ".svg")%string) ->
             (s = ".svg" \/ exists w, s = ("-" ++ w ++ ".svg")%string) ->
             s = String c (r ++ t) -> False).
  { intros c r s t Hc Ht [->|[w ->]] E; simpl in E.
    - injection E as <- E. apply (f_equal String.length) in E.
      rewrite length_app in E. simpl in E.
      destruct Ht as [->|[w ->]]; simpl in E;
        [|rewrite length_app in E; simpl in E]; lia.
    - injection E as <- _. discriminate Hc. }
  revert b; induction a as [|c r IH]; intros [|c' r'] Ha Hb H1 H2 E;
    cbn [allSafeOutput] in Ha, Hb; simpl in E.
  - split; [reflexivity | exact E].
  - exfalso. apply andb_true_iff in Hb. destruct Hb as [Hc _].
    eapply (Hhead c' r' s1 s2); eassumption.
  - exfalso. apply andb_true_iff in Ha. destruct Ha as [Hc _].
    eapply (Hhead c r s2 s1); try eassumption. symmetry; exact E.
  - apply andb_true_iff in Ha. destruct Ha as [_ Ha].
    apply andb_true_iff in Hb. destruct Hb as [_ Hb].
    injection E as -> E.
    destruct (IH r' Ha Hb H1 H2 E) as [-> ->]. split; reflexivity.
Qed.

End FilenameInjective.

(** X2: two names and weights that give the same file name have the same
    sanitized name and the same weight: files of different weights, and of
    names that differ after sanitizing, never overwrite each other. *)
Theorem createSvgFilename_injective (name1 weight1 name2 weight2 : string) :
  createSvgFilename name1 weight1 = createSvgFilename name2 weight2 ->
  createSafeFilename name1 = createSafeFilename name2 /\ weight1 = weight2.
Proof.
  intro E.
  destruct (FilenameInjective.createSvgFilename_suffix name1 weight1)
    as [s1 [E1 H1]].
  destruct (FilenameInjective.createSvgFilename_suffix name2 weight2)
    as [s2 [E2 H2]].
  rewrite E1, E2 in E.
  destruct (FilenameInjective.safe_prefix_unique
              (createSafeFilename name1) (createSafeFilename name2) s1 s2)
    as [Hn Hs]; try exact E;
    try apply SanitizeFacts.allSafeOutput_createSafeFilename.
  { destruct H1 as [[_ ->]|[_ ->]]; [left; reflexivity | right; eauto]. }
  { destruct H2 as [[_ ->]|[_ ->]]; [left; reflexivity | right; eauto]. }
  split; [exact Hn|].
  destruct H1 as [[W1 S1]|[W1 S1]], H2 as [[W2 S2]|[W2 S2]]; subst s1 s2.
  - congruence.
  - discriminate Hs.
  - discriminate Hs.
  - simpl in Hs. injection Hs as Hs.
    apply FilenameInjective.app_inv_tail in Hs. exact Hs.
Qed.

(** Two names that differ only by what sanitizing removes share a file. *)
Lemma createSvgFilename_injective_witness :
  createSvgFilename "Moon Stars" "bold" = createSvgFilename "moon_stars" "bold"
  /\ createSafeFilename "Moon Stars" = createSafeFilename "moon_stars"
  /\ "bold" = "bold".
Proof.
  split; [reflexivity|].
  exact (createSvgFilename_injective "Moon Stars" "bold" "moon_stars" "bold"
           eq_refl).
Defined.

(* ------------------------------------------------------------------ *)
(** ** The path data of a document *)

Module PathDataFacts.
Import JsString Reference.

Lemma untilQuote_found (s d : string) :
  untilQuote s = Some d ->
  hasUnit quoteUnit d = false /\ exists post, s = (d ++ dq ++ post)%string.
Proof.
  revert d; induction s as [|c r IH]; intros d E; simpl in E; [discriminate|].
  destruct (Ascii.eqb c quoteUnit) eqn:Q.
  - injection E as <-. apply Ascii.eqb_eq in Q. subst c.
    split; [reflexivity|]. exists r. reflexivity.
  - destruct (untilQuote r) as [d'|]; [|discriminate].
    injection E as <-. destruct (IH d' eq_refl) as [Hq [post ->]].
    split; [cbn [hasUnit]; rewrite Q; exact Hq|].
    exists post. reflexivity.
Qed.

Lemma matchD_found (s d : string) :
  matchD s = Some d ->
  hasUnit quoteUnit d = false
  /\ exists (pre : string) (u : ascii) (post : string),
       s = (pre ++ String u ("=" ++ dq ++ d ++ dq ++ post))%string
       /\ (u = "d"%char \/ u = "D"%char).
Proof.
  induction s as [|c r IH]; intro E; [discriminate|].
  assert (Hlater : matchD r = Some d ->
            hasUnit quoteUnit d = false
            /\ exists (pre : string) (u : ascii) (post : string),
                 String c r = (pre ++ String u ("=" ++ dq ++ d ++ dq ++ post))%string
                 /\ (u = "d"%char \/ u = "D"%char)).
  { intro E'. destruct (IH E') as [Hq [pre [u [post [-> Hu]]]]].
    split; [exact Hq|]. exists (String c pre), u, post.
    split; [reflexivity | exact Hu]. }
  cbn [matchD] in E.
  destruct (Ascii.eqb c "d" || Ascii.eqb c "D")%bool eqn:Hd;
    [|apply Hlater; exact E].
  destruct r as [|e [|q body]]; try (apply Hlater; exact E).
  destruct (Ascii.eqb e "=" && Ascii.eqb q quoteUnit)%bool eqn:Heq;
    [|apply Hlater; exact E].
  destruct (untilQuote body) as [d'|] eqn:U; [|apply Hlater; exact E].
  injection E as <-.
  destruct (untilQuote_found _ _ U) as [Hq [post ->]].
  apply andb_true_iff in Heq. destruct Heq as [He Hqq].
  apply Ascii.eqb_eq in He, Hqq. subst e q.
  split; [exact Hq|]. exists EmptyString, c, post.
  split; [reflexivity|].
  apply orb_true_iff in Hd.
  destruct Hd as [Hd|Hd]; apply Ascii.eqb_eq in Hd; auto.
Qed.

End PathDataFacts.

Section DocumentFacts.

Context {num : Type} `{JsNumber num}.
Variable numberToString : num -> string.
Variable options : GenerateSymbolOptions num.

(** A document comes from a bounding box and a path element. *)
Lemma generateSymbolSvg_some (font : Font num) (char name doc : string) :
  generateSymbolSvg numberToString font char name options = Some doc ->
  exists (p : Path num) (b : BoundingBox num) (pathElement dContent : string),
    getPath font char num_zero num_zero (fontSize options) = Ok (Some p)
    /\ getBoundingBox p = Ok (Some b)
    /\ toSVG p PATH_PRECISION = Ok pathElement
    /\ JsString.matchD pathElement = Some dContent
    /\ doc = svgDocument numberToString (fontSize options) name
               (transformMatrix options b) dContent.
Proof.
  unfold generateSymbolSvg, generateSymbolSvgBody.
  destruct (charToGlyphIndex font char) as [i|e]; cbn [bindExec catchNull];
    [|discriminate].
  destruct (i =? 0)%nat; [discriminate|].
  destruct (glyphs_get font i) as [[g|]|e]; cbn [bindExec catchNull];
    try discriminate.
  destruct (getPath font char num_zero num_zero (fontSize options))
    as [[p|]|e]; cbn [bindExec catchNull]; try discriminate.
  destruct (getBoundingBox p) as [[b|]|e] eqn:Hb; cbn [bindExec catchNull];
    try discriminate.
  destruct (toSVG p PATH_PRECISION) as [el|e] eqn:Hs; cbn [bindExec catchNull];
    try discriminate.
  destruct (JsString.matchD el) as [d|] eqn:Hd; [|discriminate].
  intros [= <-]. exists p, b, el, d. repeat split; assumption.
Qed.

Lemma svgDocument_truthy (size : num) (name : string) (matrix : list num)
    (dContent : string) :
  JsString.truthy (svgDocument numberToString size name matrix dContent) = true.
Proof. reflexivity. Qed.

End DocumentFacts.

(** X3: a document that [generateSymbolSvg] returns is the template filled
    with the transform of the bounding box of the character's path and with
    the path data read between the quotes of a [d] attribute of the element
    [toSVG] gave; the path data holds no double quote, and the document is
    not the empty string. *)
Theorem generateSymbolSvg_path_data {num : Type} `{JsNumber num}
    (numberToString : num -> string) (options : GenerateSymbolOptions num)
    (font : Font num) (char name doc : string) :
  generateSymbolSvg numberToString font char name options = Some doc ->
  JsString.truthy doc = true
  /\ exists (p : Path num) (b : BoundingBox num)
       (pre : string) (u : ascii) (dContent post : string),
       getPath font char num_zero num_zero (fontSize options) = Ok (Some p)
       /\ getBoundingBox p = Ok (Some b)
       /\ toSVG p PATH_PRECISION
          = Ok (pre ++ String u ("=" ++ JsString.dq ++ dContent ++ JsString.dq
                                 ++ post))%string
       /\ (u = "d"%char \/ u = "D"%char)
       /\ Reference.hasUnit JsString.quoteUnit dContent = false
       /\ doc = svgDocument numberToString (fontSize options) name
                  (transformMatrix options b) dContent.
Proof.
  intro Hdoc.
  destruct (generateSymbolSvg_some numberToString options font char name doc Hdoc)
    as [p [b [el [d [Hp [Hb [Hs [Hd ->]]]]]]]].
  split; [apply svgDocument_truthy|].
  destruct (PathDataFacts.matchD_found el d Hd) as [Hq [pre [u [post [-> Hu]]]]].
  exists p, b, pre, u, d, post. repeat split; assumption.
Qed.

(** A font with a glyph for the character, on the default canvas. *)
Lemma generateSymbolSvg_path_data_witness :
  generateSymbolSvg Examples.numberToString64
    (Examples.fontOf (Examples.box 0 0 10 10)%float (fun c => c))
    "M0 0L10 10Z" "icon" Examples.canvas24
  = Some (svgDocument Examples.numberToString64 24%float "icon"
            [2; 0; 0; 2; 2; 2]%float "M0 0L10 10Z")
  /\ JsString.truthy
       (svgDocument Examples.numberToString64 24%float "icon"
          [2; 0; 0; 2; 2; 2]%float "M0 0L10 10Z") = true.
Proof.
  split; [vm_compute; reflexivity|].
  refine (proj1 (generateSymbolSvg_path_data Examples.numberToString64
                   Examples.canvas24
                   (Examples.fontOf (Examples.box 0 0 10 10)%float (fun c => c))
                   "M0 0L10 10Z" "icon" _ _)).
  vm_compute. reflexivity.
Defined.

(* ------------------------------------------------------------------ *)
(** ** Reading the lines of a file *)

Module LineFacts.
Import JsString Reference.

(** Induction on a string two units at a time. *)
Lemma string_ind2 (P : string -> Prop) :
  P EmptyString ->
  (forall c, P (String c EmptyString)) ->
  (forall c c' r, P r -> P (String c' r) -> P (String c (String c' r))) ->
  forall s, P s.
Proof.
  intros H0 H1 H2 s.
  assert (Hboth : P s /\ forall c, P (String c s)).
  { induction s as [|a r [IHr IHcr]]; split; auto. }
  exact (proj1 Hboth).
Qed.

Lemma app_nil_r (s : string) : (s ++ EmptyString)%string = s.
Proof. induction s as [|c r IH]; simpl; congruence. Qed.

Lemma app_assoc (s t u : string) : ((s ++ t) ++ u = s ++ t ++ u)%string.
Proof. induction s as [|c r IH]; simpl; congruence. Qed.

Lemma string_of_app (l m : list ascii) :
  string_of_list_ascii (l ++ m)
  = (string_of_list_ascii l ++ string_of_list_ascii m)%string.
Proof. induction l as [|c r IH]; simpl; congruence. Qed.

Lemma line_snoc (cur : list ascii) (c : ascii) (t : string) :
  (string_of_list_ascii (rev (c :: cur)) ++ t)%string
  = (string_of_list_ascii (rev cur) ++ String c t)%string.
Proof.
  cbn [rev]. rewrite string_of_app, app_assoc. reflexivity.
Qed.

Lemma hasUnit_app (c : ascii) (s t : string) :
  hasUnit c (s ++ t) = hasUnit c s || hasUnit c t.
Proof.
  induction s as [|u r IH]; [reflexivity|].
  simpl. rewrite IH. apply orb_assoc.
Qed.

Lemma hasUnit_line (c u : ascii) (cur : list ascii) :
  hasUnit c (string_of_list_ascii (rev (u :: cur)))
  = hasUnit c (string_of_list_ascii (rev cur)) || Ascii.eqb u c.
Proof.
  cbn [rev]. rewrite string_of_app, hasUnit_app. simpl.
  rewrite orb_false_r. reflexivity.
Qed.

Lemma splitLinesFrom_not_nil (cur : list ascii) (s : string) :
  splitLinesFrom cur s <> [].
Proof.
  revert cur; induction s as [|c r IH]; intro cur; cbn [splitLinesFrom];
    [discriminate|].
  destruct (Ascii.eqb c lfUnit); [discriminate|].
  destruct (Ascii.eqb c crUnit); [|apply IH].
  destruct r as [|c' r']; [apply IH|].
  destruct (Ascii.eqb c' lfUnit); [discriminate | apply IH].
Qed.

Lemma join_cons (sep x : string) (xs : list string) :
  xs <> [] -> join sep (x :: xs) = (x ++ sep ++ join sep xs)%string.
Proof. destruct xs; [congruence | reflexivity]. Qed.

Lemma splitLinesFrom_cons (cur : list ascii) (c : ascii) (r : string) :
  splitLinesFrom cur (String c r)
  = if Ascii.eqb c lfUnit then
      string_of_list_ascii (rev cur) :: splitLinesFrom [] r
    else if Ascii.eqb c crUnit then
      match r with
      | String c' r' =>
          if Ascii.eqb c' lfUnit then
            string_of_list_ascii (rev cur) :: splitLinesFrom [] r'
          else splitLinesFrom (c :: cur) r
      | EmptyString => splitLinesFrom (c :: cur) r
      end
    else splitLinesFrom (c :: cur) r.
Proof. reflexivity. Qed.

Lemma dropCrBeforeLf_cons (c : ascii) (r : string) :
  dropCrBeforeLf (String c r)
  = if Ascii.eqb c crUnit then
      match r with
      | String c' _ =>
          if Ascii.eqb c' lfUnit then dropCrBeforeLf r
          else String c (dropCrBeforeLf r)
      | EmptyString => String c EmptyString
      end
    else String c (dropCrBeforeLf r).
Proof. reflexivity. Qed.

Lemma lf_is_not_cr (c : ascii) :
  Ascii.eqb c lfUnit = true -> Ascii.eqb c crUnit = false.
Proof. intro L. apply Ascii.eqb_eq in L. subst c. reflexivity. Qed.

(** No line holds a line feed. *)
Lemma splitLinesFrom_no_lf (s : string) :
  forall cur line,
    hasUnit lfUnit (string_of_list_ascii (rev cur)) = false ->
    In line (splitLinesFrom cur s) -> hasUnit lfUnit line = false.
Proof.
  induction s as [|c|c c' r IHr IHcr] using string_ind2; intros cur line Hcur.
  - intros [<-|[]]. exact Hcur.
  - intro Hin. cbn [splitLinesFrom] in Hin.
    destruct (Ascii.eqb c lfUnit) eqn:L.
    + destruct Hin as [<-|[<-|[]]]; [exact Hcur | reflexivity].
    + assert (Hc : hasUnit lfUnit (string_of_list_ascii (rev (c :: cur))) = false)
        by (rewrite hasUnit_line, Hcur, L; reflexivity).
      destruct (Ascii.eqb c crUnit); destruct Hin as [<-|[]]; exact Hc.
  - intro Hin. rewrite splitLinesFrom_cons in Hin.
    destruct (Ascii.eqb c lfUnit) eqn:L.
    + destruct Hin as [<-|Hin]; [exact Hcur|].
      apply (IHcr [] line); [reflexivity | exact Hin].
    + assert (Hc : hasUnit lfUnit (string_of_list_ascii (rev (c :: cur))) = false)
        by (rewrite hasUnit_line, Hcur, L; reflexivity).
      destruct (Ascii.eqb c crUnit).
      * destruct (Ascii.eqb c' lfUnit) eqn:L'.
        -- destruct Hin as [<-|Hin]; [exact Hcur|].
           apply (IHr [] line); [reflexivity | exact Hin].
        -- apply (IHcr (c :: cur) line Hc Hin).
      * apply (IHcr (c :: cur) line Hc Hin).
Qed.

(** There is one line more than there are line feeds. *)
Lemma splitLinesFrom_length (s : string) :
  forall cur, List.length (splitLinesFrom cur s) = S (countUnit lfUnit s).
Proof.
  induction s as [|c|c c' r IHr IHcr] using string_ind2; intro cur.
  - reflexivity.
  - cbn [splitLinesFrom countUnit].
    destruct (Ascii.eqb c lfUnit); [reflexivity|].
    destruct (Ascii.eqb c crUnit); reflexivity.
  - rewrite splitLinesFrom_cons.
    change (countUnit lfUnit (String c (String c' r)))
      with ((if Ascii.eqb c lfUnit then 1 else 0)
            + countUnit lfUnit (String c' r))%nat.
    destruct (Ascii.eqb c lfUnit) eqn:L.
    + cbn [List.length]. rewrite IHcr. reflexivity.
    + destruct (Ascii.eqb c crUnit).
      * destruct (Ascii.eqb c' lfUnit) eqn:L'.
        -- cbn [List.length countUnit]. rewrite IHr, L'. reflexivity.
        -- apply IHcr.
      * apply IHcr.
Qed.

(** Joined with line feeds, the lines give the content back, but for the
    carriage returns that stood before a line feed. *)
Lemma splitLinesFrom_join (s : string) :
  forall cur,
    join lf (splitLinesFrom cur s)
    = (string_of_list_ascii (rev cur) ++ dropCrBeforeLf s)%string.
Proof.
  induction s as [|c|c c' r IHr IHcr] using string_ind2; intro cur.
  - cbn [splitLinesFrom join dropCrBeforeLf]. symmetry; apply app_nil_r.
  - cbn [splitLinesFrom dropCrBeforeLf].
    destruct (Ascii.eqb c lfUnit) eqn:L.
    + rewrite (lf_is_not_cr c L).
      apply Ascii.eqb_eq in L. subst c. reflexivity.
    + destruct (Ascii.eqb c crUnit); cbn [splitLinesFrom join];
        rewrite <- line_snoc, app_nil_r; reflexivity.
  - rewrite splitLinesFrom_cons, dropCrBeforeLf_cons.
    destruct (Ascii.eqb c lfUnit) eqn:L.
    + rewrite (lf_is_not_cr c L).
      apply Ascii.eqb_eq in L. subst c.
      rewrite join_cons by apply splitLinesFrom_not_nil.
      rewrite IHcr. reflexivity.
    + destruct (Ascii.eqb c crUnit) eqn:C.
      * destruct (Ascii.eqb c' lfUnit) eqn:L'.
        -- rewrite join_cons by apply splitLinesFrom_not_nil.
           rewrite IHr, dropCrBeforeLf_cons, (lf_is_not_cr c' L').
           apply Ascii.eqb_eq in L'. subst c'. reflexivity.
        -- rewrite IHcr. apply line_snoc.
      * rewrite IHcr. apply line_snoc.
Qed.

Lemma dropCrBeforeLf_no_cr (s : string) :
  hasUnit crUnit s = false -> dropCrBeforeLf s = s.
Proof.
  induction s as [|c r IH]; [reflexivity|].
  cbn [hasUnit dropCrBeforeLf]. intro Hs.
  apply orb_false_iff in Hs. destruct Hs as [Hc Hr].
  rewrite Hc, (IH Hr). reflexivity.
Qed.

End LineFacts.

(** X4: the lines [split] cuts a text into hold no line feed; there is one
    line more than there are line feeds; and joining the lines with line
    feeds gives the text back, but for the carriage returns that stood
    before a line feed (so a text without carriage returns comes back as it
    was). The names read from a file are the lines that are not empty. *)
Theorem splitLines_lines (content : string) :
  (forall line, In line (JsString.splitLines content) ->
     Reference.hasUnit JsString.lfUnit line = false)
  /\ List.length (JsString.splitLines content)
     = S (Reference.countUnit JsString.lfUnit content)
  /\ JsString.join JsString.lf (JsString.splitLines content)
     = Reference.dropCrBeforeLf content
  /\ (Reference.hasUnit JsString.crUnit content = false ->
      JsString.join JsString.lf (JsString.splitLines content) = content)
  /\ (forall name, In name (DataFiles.readNames content) <->
        In name (JsString.splitLines content) /\ name <> EmptyString).
Proof.
  unfold JsString.splitLines.
  split; [intros line; apply LineFacts.splitLinesFrom_no_lf; reflexivity|].
  split; [apply LineFacts.splitLinesFrom_length|].
  split; [apply LineFacts.splitLinesFrom_join|].
  split.
  - intro Hcr. rewrite LineFacts.splitLinesFrom_join.
    apply LineFacts.dropCrBeforeLf_no_cr. exact Hcr.
  - intro name. unfold DataFiles.readNames, JsString.splitLines.
    rewrite filter_In. split; intros [Hin T]; split; try exact Hin.
    + intros ->. discriminate.
    + destruct name; [congruence | reflexivity].
Qed.

(* ------------------------------------------------------------------ *)
(** ** Reading the codepoints *)

Module PairFacts.
Import Reference DataFiles.

(** Induction on a list two units at a time. *)
Lemma list_ind2 {A : Type} (P : list A -> Prop) :
  P [] ->
  (forall c, P [c]) ->
  (forall c c' r, P r -> P (c' :: r) -> P (c :: c' :: r)) ->
  forall s, P s.
Proof.
  intros H0 H1 H2.
  assert (Hboth : forall s, P s /\ forall c, P (c :: s)).
  { induction s as [|c' r [IHr IHcr]].
    - split; [exact H0 | exact H1].
    - split; [apply IHcr|]. intro c. apply H2; [exact IHr | apply IHcr]. }
  intro s. apply Hboth.
Qed.

Lemma matchPairs_cons (c : N) (r : CodeUnits) :
  matchPairs (c :: r)
  = if isLineTerminator c then matchPairs r
    else
      match r with
      | c' :: r' =>
          if isLineTerminator c' then [c] :: matchPairs r
          else [c; c'] :: matchPairs r'
      | [] => [[c]]
      end.
Proof. reflexivity. Qed.

Lemma withoutTerminators_cons (c : N) (r : CodeUnits) :
  withoutTerminators (c :: r)
  = if isLineTerminator c then withoutTerminators r
    else c :: withoutTerminators r.
Proof. reflexivity. Qed.

Lemma matchPairs_pieces (s : CodeUnits) :
  forall piece, In piece (matchPairs s) -> isPiece piece.
Proof.
  induction s as [|c|c c' r IHr IHcr] using list_ind2; intros piece Hin.
  - destruct Hin.
  - cbn [matchPairs] in Hin.
    destruct (isLineTerminator c) eqn:T; [destruct Hin|].
    destruct Hin as [<-|[]]. left. eauto.
  - rewrite matchPairs_cons in Hin.
    destruct (isLineTerminator c) eqn:T; [apply IHcr; exact Hin|].
    destruct (isLineTerminator c') eqn:T'.
    + destruct Hin as [<-|Hin]; [left; eauto | apply IHcr; exact Hin].
    + destruct Hin as [<-|Hin]; [right; eauto | apply IHr; exact Hin].
Qed.

Lemma matchPairs_concat (s : CodeUnits) :
  List.concat (matchPairs s) = withoutTerminators s.
Proof.
  induction s as [|c|c c' r IHr IHcr] using list_ind2.
  - reflexivity.
  - cbn [matchPairs withoutTerminators].
    destruct (isLineTerminator c); reflexivity.
  - rewrite matchPairs_cons, withoutTerminators_cons.
    destruct (isLineTerminator c) eqn:T; [exact IHcr|].
    destruct (isLineTerminator c') eqn:T'.
    + cbn [List.concat app]. rewrite IHcr. reflexivity.
    + cbn [List.concat app]. rewrite IHr, withoutTerminators_cons, T'.
      reflexivity.
Qed.

Lemma readSymbols_matchPairs (s : CodeUnits) : readSymbols s = matchPairs s.
Proof.
  unfold readSymbols.
  assert (Hall : forall piece, In piece (matchPairs s) ->
                               notEmpty piece = true).
  { intros piece Hin.
    destruct (matchPairs_pieces s piece Hin) as [[c [-> _]]|[c [c' [-> _]]]];
      reflexivity. }
  induction (matchPairs s) as [|x xs IH]; [reflexivity|].
  cbn [filter]. rewrite (Hall x (or_introl eq_refl)). f_equal.
  apply IH. intros piece Hin. apply Hall. right; exact Hin.
Qed.

Lemma withoutTerminators_shorter (s : CodeUnits) :
  (List.length (withoutTerminators s) <= List.length s)%nat.
Proof.
  induction s as [|u t IH]; [apply le_n|].
  rewrite withoutTerminators_cons.
  destruct (isLineTerminator u); simpl; lia.
Qed.

Lemma withoutTerminators_fixed (c : N) (r : CodeUnits) :
  withoutTerminators (c :: r) = c :: r ->
  isLineTerminator c = false /\ withoutTerminators r = r.
Proof.
  intro E. rewrite withoutTerminators_cons in E.
  destruct (isLineTerminator c) eqn:T.
  - exfalso. apply (f_equal (@List.length N)) in E.
    pose proof (withoutTerminators_shorter r). simpl in E. lia.
  - injection E as E. split; [reflexivity | exact E].
Qed.

(** A text is without terminators exactly when none of its units is one. *)
Lemma withoutTerminators_fixed_iff (s : CodeUnits) :
  withoutTerminators s = s <-> existsb isLineTerminator s = false.
Proof.
  induction s as [|c r IH].
  - split; reflexivity.
  - cbn [existsb]. rewrite orb_false_iff, <- IH. split.
    + apply withoutTerminators_fixed.
    + intros [T Hr]. rewrite withoutTerminators_cons, T, Hr. reflexivity.
Qed.

(** Without line terminators the pieces are the pairs of units, in order. *)
Lemma matchPairs_nth (s : CodeUnits) :
  forall k,
    withoutTerminators s = s ->
    (2 * k < List.length s)%nat ->
    nth_error (matchPairs s) k = Some (firstn 2 (skipn (2 * k) s)).
Proof.
  induction s as [|c|c c' r IHr IHcr] using list_ind2; intros k Hs Hk.
  - simpl in Hk. lia.
  - destruct (withoutTerminators_fixed _ _ Hs) as [T _].
    cbn [matchPairs]. rewrite T.
    destruct k as [|k]; [reflexivity | simpl in Hk; lia].
  - destruct (withoutTerminators_fixed _ _ Hs) as [T Hs'].
    destruct (withoutTerminators_fixed _ _ Hs') as [T' Hs''].
    rewrite matchPairs_cons, T, T'.
    destruct k as [|k]; [reflexivity|].
    cbn [nth_error].
    replace (2 * S k)%nat with (S (S (2 * k))) by lia.
    cbn [skipn].
    apply IHr; [exact Hs''|]. simpl in Hk. lia.
Qed.

Lemma matchPairs_length (s : CodeUnits) :
  withoutTerminators s = s ->
  List.length (matchPairs s) = Nat.div2 (S (List.length s)).
Proof.
  induction s as [|c|c c' r IHr IHcr] using list_ind2; intro Hs.
  - reflexivity.
  - destruct (withoutTerminators_fixed _ _ Hs) as [T _].
    cbn [matchPairs]. rewrite T. reflexivity.
  - destruct (withoutTerminators_fixed _ _ Hs) as [T Hs'].
    destruct (withoutTerminators_fixed _ _ Hs') as [T' Hs''].
    rewrite matchPairs_cons, T, T'. cbn [List.length].
    rewrite (IHr Hs''). reflexivity.
Qed.

End PairFacts.

(** X5: the codepoints read from a text, a list of UTF-16 code units, are
    pieces of one or two units, none of them a line terminator (line feed,
    carriage return, U+2028 or U+2029), and put together they are the text
    without its line terminators: no other unit is lost and none is read
    twice. The list is empty exactly when the text holds line terminators
    only. *)
Theorem readSymbols_pieces (content : DataFiles.CodeUnits) :
  (forall piece, In piece (DataFiles.readSymbols content) ->
     Reference.isPiece piece)
  /\ List.concat (DataFiles.readSymbols content)
     = Reference.withoutTerminators content
  /\ (forall u, In u (Reference.withoutTerminators content) <->
        In u content
        /\ u <> 10%N /\ u <> 13%N /\ u <> 8232%N /\ u <> 8233%N)
  /\ (DataFiles.readSymbols content = [] <->
      Reference.withoutTerminators content = []).
Proof.
  rewrite PairFacts.readSymbols_matchPairs.
  split; [apply PairFacts.matchPairs_pieces|].
  split; [apply PairFacts.matchPairs_concat|].
  split.
  { intro u. induction content as [|c r IH].
    - split; [intros [] | intros [[] _]].
    - rewrite PairFacts.withoutTerminators_cons.
      assert (HT : DataFiles.isLineTerminator c = false
                   <-> c <> 10%N /\ c <> 13%N /\ c <> 8232%N /\ c <> 8233%N).
      { unfold DataFiles.isLineTerminator.
        rewrite !orb_false_iff, !N.eqb_neq. tauto. }
      destruct (DataFiles.isLineTerminator c) eqn:T.
      + rewrite IH. split.
        * intros [Hin Hu]. split; [right; exact Hin | exact Hu].
        * intros [[<-|Hin] Hu]; [|split; assumption].
          apply HT in Hu. discriminate Hu.
      + split.
        * intros [<-|Hin].
          -- split; [left; reflexivity | apply HT; reflexivity].
          -- apply IH in Hin. destruct Hin as [Hin Hu].
             split; [right; exact Hin | exact Hu].
        * intros [[<-|Hin] Hu]; [left; reflexivity|].
          right. apply IH. split; assumption. }
  rewrite <- PairFacts.matchPairs_concat. split.
  - intros ->. reflexivity.
  - destruct (DataFiles.matchPairs content) as [|piece rest] eqn:E;
      [reflexivity|].
    intro Hcat. exfalso.
    assert (Hp : Reference.isPiece piece).
    { apply (PairFacts.matchPairs_pieces content). rewrite E. left; reflexivity. }
    destruct Hp as [[c [-> _]]|[c [c' [-> _]]]]; discriminate Hcat.
Qed.

(** X6: for a text, a list of UTF-16 code units, none of which is a line
    terminator (line feed, carriage return, U+2028 or U+2029), the
    codepoints are its units two by two: the one of index [k] is made of
    the units [2k] and [2k + 1] (of the unit [2k] alone at the end of a text
    of odd length), and there are half as many as units, rounded up. A text
    made of characters of two units each, as [symbols.txt] is, is read
    character by character. *)
Theorem readSymbols_fixed_width (content : DataFiles.CodeUnits) :
  existsb DataFiles.isLineTerminator content = false ->
  List.length (DataFiles.readSymbols content)
  = Nat.div2 (S (List.length content))
  /\ (forall k, (2 * k < List.length content)%nat ->
        nth_error (DataFiles.readSymbols content) k
        = Some (firstn 2 (skipn (2 * k) content))).
Proof.
  intro Hall. apply PairFacts.withoutTerminators_fixed_iff in Hall.
  rewrite PairFacts.readSymbols_matchPairs.
  split; [apply PairFacts.matchPairs_length; exact Hall|].
  intros k Hk. apply PairFacts.matchPairs_nth; assumption.
Qed.

(** The characters U+100000 and U+100001, two units each, and a letter. *)
Lemma readSymbols_fixed_width_witness :
  existsb DataFiles.isLineTerminator [56256; 56320; 56256; 56321; 65]%N
  = false
  /\ DataFiles.readSymbols [56256; 56320; 56256; 56321; 65]%N
     = [[56256; 56320]; [56256; 56321]; [65]]%N
  /\ List.length (DataFiles.readSymbols [56256; 56320; 56256; 56321; 65]%N)
     = 3%nat
  /\ nth_error (DataFiles.readSymbols [56256; 56320; 56256; 56321; 65]%N) 1
     = Some [56256; 56321]%N.
Proof.
  split; [reflexivity|]. split; [reflexivity|].
  split;
    [exact (proj1 (readSymbols_fixed_width [56256; 56320; 56256; 56321; 65]%N
                     eq_refl))|].
  refine (proj2 (readSymbols_fixed_width [56256; 56320; 56256; 56321; 65]%N
                   eq_refl) 1%nat _).
  simpl; lia.
Defined.

(* ------------------------------------------------------------------ *)
(** ** What the icon filter keeps *)

Module SelectFacts.
Import JsString.

Lemma codepointOf_In (names symbolsData : list string) (n c : string) :
  In c (codepointOf names symbolsData n) -> In c symbolsData.
Proof.
  unfold codepointOf, at_.
  destruct (indexOf names n <? 0)%Z; [intros []|].
  destruct (nth_error symbolsData (Z.to_nat (indexOf names n))) as [x|] eqn:E;
    [|intros []].
  destruct (truthy x); [|intros []].
  intros [<-|[]]. eapply nth_error_In; eassumption.
Qed.

(** The two outcomes of the selection. *)
Lemma selectIcons_cases (readFileSync : string -> Exec string)
    (iconsListFileOption : option string) (names symbolsData : list string) :
  selectIcons readFileSync iconsListFileOption names symbolsData
  = (names, symbolsData)
  \/ exists iconsList,
       filter (isMatched names) iconsList <> []
       /\ selectIcons readFileSync iconsListFileOption names symbolsData
          = (filter (isMatched names) iconsList,
             flat_map (codepointOf names symbolsData)
               (filter (isMatched names) iconsList)).
Proof.
  unfold selectIcons.
  destruct iconsListFileOption as [file|]; [|left; reflexivity].
  destruct (negb (truthy file)); [left; reflexivity|].
  destruct (readFileSync file) as [content|e]; [|left; reflexivity].
  destruct (List.length (readIconsList content) =? 0)%nat; [left; reflexivity|].
  rewrite IconsListFacts.filterIcons_eq.
  destruct (filter (isMatched names) (readIconsList content)) as [|x xs] eqn:E.
  - left; reflexivity.
  - right. exists (readIconsList content). rewrite E.
    split; [discriminate | reflexivity].
Qed.

Lemma selected_names_In (readFileSync : string -> Exec string)
    (iconsListFileOption : option string) (names symbolsData : list string)
    (n : string) :
  In n (fst (selectIcons readFileSync iconsListFileOption names symbolsData)) ->
  In n names.
Proof.
  destruct (selectIcons_cases readFileSync iconsListFileOption names symbolsData)
    as [->|[l [_ ->]]]; cbn [fst]; [auto|].
  intro Hin. apply filter_In in Hin.
  apply IconsListFacts.isMatched_In. exact (proj2 Hin).
Qed.

Lemma selected_symbols_In (readFileSync : string -> Exec string)
    (iconsListFileOption : option string) (names symbolsData : list string)
    (c : string) :
  In c (snd (selectIcons readFileSync iconsListFileOption names symbolsData)) ->
  In c symbolsData.
Proof.
  destruct (selectIcons_cases readFileSync iconsListFileOption names symbolsData)
    as [->|[l [_ ->]]]; cbn [snd]; [auto|].
  intro Hin. apply in_flat_map in Hin. destruct Hin as [n [_ Hc]].
  eapply codepointOf_In; eassumption.
Qed.

End SelectFacts.

(** X7: whatever the list file holds, and whether or not it can be read,
    the names the run goes on with are names of the name list, the
    codepoints are codepoints of the codepoint list, and the names are none
    only when the name list was empty. *)
Theorem selectIcons_stays_within (readFileSync : string -> Exec string)
    (iconsListFileOption : option string) (names symbolsData : list string) :
  (forall n,
      In n (fst (selectIcons readFileSync iconsListFileOption names symbolsData)) ->
      In n names)
  /\ (forall c,
        In c (snd (selectIcons readFileSync iconsListFileOption names symbolsData)) ->
        In c symbolsData)
  /\ (fst (selectIcons readFileSync iconsListFileOption names symbolsData) = [] ->
      names = []).
Proof.
  split; [intro n; apply SelectFacts.selected_names_In|].
  split; [intro c; apply SelectFacts.selected_symbols_In|].
  destruct (SelectFacts.selectIcons_cases readFileSync iconsListFileOption
              names symbolsData) as [->|[l [Hne ->]]]; cbn [fst].
  - auto.
  - intro E; contradiction.
Qed.

(* ------------------------------------------------------------------ *)
(** ** The files a run writes *)

Section WrittenFiles.

Context {num : Type} `{JsNumber num}.
Variable numberToString : num -> string.
Variable pathJoin : string -> string -> string.
Variable outputDir : string.
Variable options : GenerateSymbolOptions num.

(** Where a file of the loop over the fonts comes from. *)
Lemma pairOutput_In (name char path doc : string) (vf : ValidFont num) :
  In (path, doc) (pairOutput numberToString pathJoin outputDir options name char vf) ->
  path = pathJoin outputDir (createSvgFilename name (weight vf))
  /\ generateSymbolSvg numberToString (font vf) char name options = Some doc.
Proof.
  unfold pairOutput.
  destruct (generateSymbolSvg numberToString (font vf) char name options)
    as [svgContent|]; [|intros []].
  destruct (JsString.truthy svgContent); [|intros []].
  intros [E|[]]. injection E as <- <-. split; reflexivity.
Qed.

Lemma pairOutput_length (name char : string) (vf : ValidFont num) :
  (List.length (pairOutput numberToString pathJoin outputDir options name char vf)
   <= 1)%nat.
Proof.
  unfold pairOutput.
  destruct (generateSymbolSvg numberToString (font vf) char name options)
    as [svgContent|]; [|simpl; lia].
  destruct (JsString.truthy svgContent); simpl; lia.
Qed.

Lemma turnOutput_In (names symbolsData : list string)
    (validFonts : list (ValidFont num)) (namesIndex : nat) (path doc : string) :
  In (path, doc)
    (turnOutput numberToString pathJoin outputDir options names symbolsData
       validFonts namesIndex) ->
  exists (name char : string) (vf : ValidFont num),
    nth_error names namesIndex = Some name
    /\ nth_error symbolsData namesIndex = Some char
    /\ In vf validFonts
    /\ path = pathJoin outputDir (createSvgFilename name (weight vf))
    /\ generateSymbolSvg numberToString (font vf) char name options = Some doc.
Proof.
  unfold turnOutput.
  destruct (nth_error names namesIndex) as [name|]; [|intros []].
  destruct (nth_error symbolsData namesIndex) as [char|]; [|intros []].
  destruct (JsString.truthy name && JsString.truthy char)%bool; [|intros []].
  intro Hin. apply in_flat_map in Hin. destruct Hin as [vf [Hvf Hin]].
  apply pairOutput_In in Hin. destruct Hin as [-> Hdoc].
  exists name, char, vf. repeat split; assumption.
Qed.

Lemma turnOutput_length (names symbolsData : list string)
    (validFonts : list (ValidFont num)) (namesIndex : nat) :
  (List.length
     (turnOutput numberToString pathJoin outputDir options names symbolsData
        validFonts namesIndex)
   <= List.length validFonts)%nat.
Proof.
  unfold turnOutput.
  destruct (nth_error names namesIndex) as [name|]; [|simpl; lia].
  destruct (nth_error symbolsData namesIndex) as [char|]; [|simpl; lia].
  destruct (JsString.truthy name && JsString.truthy char)%bool; [|simpl; lia].
  induction validFonts as [|vf rest IH]; [apply le_n|].
  cbn [flat_map]. rewrite length_app.
  pose proof (pairOutput_length name char vf). simpl. lia.
Qed.

Lemma turns_length (names symbolsData : list string)
    (validFonts : list (ValidFont num)) (indices : list nat) :
  (List.length
     (flat_map
        (turnOutput numberToString pathJoin outputDir options names symbolsData
           validFonts) indices)
   <= List.length indices * List.length validFonts)%nat.
Proof.
  induction indices as [|i rest IH]; [apply le_n|].
  cbn [flat_map]. rewrite length_app.
  pose proof (turnOutput_length names symbolsData validFonts i). simpl. lia.
Qed.

End WrittenFiles.

(** X8: a run keeps the files there were and adds, for the names it goes on
    with, at most one file per name and font. Every file added is the
    document of a name of the name list, made from a codepoint of the
    codepoint list with one of the fonts, and is written under the file name
    of that name and of the weight of that font. *)
Theorem makeSvgs_written_files {num : Type} `{JsNumber num}
    (numberToString : num -> string) (pathJoin : string -> string -> string)
    (outputDir : string) (options : GenerateSymbolOptions num)
    (readFileSync : string -> Exec string) (iconsListFileOption : option string)
    (names symbolsData : list string) (validFonts : list (ValidFont num))
    (fs : FileSystem) :
  exists written,
    makeSvgs numberToString pathJoin outputDir options readFileSync
      iconsListFileOption names symbolsData validFonts fs
    = fs ++ written
    /\ (List.length written
        <= List.length
             (fst (selectIcons readFileSync iconsListFileOption names symbolsData))
           * List.length validFonts)%nat
    /\ (forall path doc, In (path, doc) written ->
          exists (name char : string) (vf : ValidFont num),
            In name names /\ In char symbolsData /\ In vf validFonts
            /\ path = pathJoin outputDir (createSvgFilename name (weight vf))
            /\ generateSymbolSvg numberToString (font vf) char name options
               = Some doc).
Proof.
  unfold makeSvgs.
  pose proof (SelectFacts.selected_names_In readFileSync iconsListFileOption
                names symbolsData) as Hnames.
  pose proof (SelectFacts.selected_symbols_In readFileSync iconsListFileOption
                names symbolsData) as Hsymbols.
  destruct (selectIcons readFileSync iconsListFileOption names symbolsData)
    as [names' symbols']. cbn [fst snd] in *.
  rewrite namesLoop_writes. eexists. split; [reflexivity|]. split.
  - rewrite <- (length_seq (List.length names') 0) at 2. apply turns_length.
  - intros path doc Hin. apply in_flat_map in Hin.
    destruct Hin as [i [_ Hin]].
    apply turnOutput_In in Hin.
    destruct Hin as [name [char [vf [Hn [Hc [Hvf [Hpath Hdoc]]]]]]].
    exists name, char, vf.
    split; [apply Hnames; eapply nth_error_In; eassumption|].
    split; [apply Hsymbols; eapply nth_error_In; eassumption|].
    repeat split; assumption.
Qed.

(* ------------------------------------------------------------------ *)
(** ** The fit transform in exact arithmetic: padding, position, refit *)

Module ExactFitMore.

Local Open Scope Q_scope.

(** The comparison of the program respects the equality of rationals. *)
Lemma num_gt_compat (a a' b b' : Q) :
  a == a' -> b == b' -> (a >? b)%js = (a' >? b')%js.
Proof.
  intros Ea Eb. cbn [num_gt exactQ]. f_equal.
  apply Qleb_comp; assumption.
Qed.

Section Margins.

Variable options : GenerateSymbolOptions Q.
Variable bbox : BoundingBox Q.
Hypothesis width_pos : x1 bbox < x2 bbox.
Hypothesis height_pos : y1 bbox < y2 bbox.
Hypothesis room : padding options * 2 < fontSize options.

(** The image of the lower corner and of the upper corner, from the scaled
    sizes. *)
Lemma lower_corner :
  scale options bbox * x1 bbox + 0 * y1 bbox + translateX options bbox
  == (fontSize options - scaledWidth options bbox) / 2
  /\ 0 * x1 bbox + scale options bbox * y1 bbox + translateY options bbox
     == (fontSize options - scaledHeight options bbox) / 2.
Proof.
  unfold translateX, translateY.
  cbn [num_zero num_two num_add num_sub num_mul num_div exactQ].
  split; field.
Qed.

Lemma upper_corner :
  scale options bbox * x2 bbox + 0 * y2 bbox + translateX options bbox
  == (fontSize options + scaledWidth options bbox) / 2
  /\ 0 * x2 bbox + scale options bbox * y2 bbox + translateY options bbox
     == (fontSize options + scaledHeight options bbox) / 2.
Proof.
  unfold translateX, translateY, scaledWidth, scaledHeight, symbolWidth,
    symbolHeight.
  cbn [num_zero num_two num_add num_sub num_mul num_div exactQ].
  split; field.
Qed.

End Margins.
End ExactFitMore.

(** X9: with the formulas evaluated in exact arithmetic, for a box of
    positive width and height and a canvas size above twice the padding,
    the image of the box keeps the padding on every side: its corners lie
    between the padding and the canvas size less the padding; and on the
    limiting dimension the margins are the padding. *)
Theorem padding_is_kept_exact (options : GenerateSymbolOptions Q)
    (bbox : BoundingBox Q) :
  (x1 bbox < x2 bbox)%Q -> (y1 bbox < y2 bbox)%Q ->
  (padding options * 2 < fontSize options)%Q ->
  exists lx ly hx hy : Q,
    applyTransformToPoint (x1 bbox) (y1 bbox) (transformMatrix options bbox)
    = Some (lx, ly)
    /\ applyTransformToPoint (x2 bbox) (y2 bbox) (transformMatrix options bbox)
       = Some (hx, hy)
    /\ (padding options <= lx)%Q /\ (hx <= fontSize options - padding options)%Q
    /\ (padding options <= ly)%Q /\ (hy <= fontSize options - padding options)%Q
    /\ ((widthRatio options bbox >? heightRatio options bbox)%js = true ->
        (lx == padding options)%Q
        /\ (hx == fontSize options - padding options)%Q)
    /\ ((widthRatio options bbox >? heightRatio options bbox)%js = false ->
        (ly == padding options)%Q
        /\ (hy == fontSize options - padding options)%Q).
Proof.
  intros Hw Hh Hroom.
  rewrite !applyTransformToPoint_matrix. do 4 eexists.
  split; [reflexivity|]. split; [reflexivity|].
  destruct (ExactFitMore.lower_corner options bbox) as [Lx Ly].
  destruct (ExactFitMore.upper_corner options bbox) as [Ux Uy].
  rewrite Lx, Ly, Ux, Uy.
  destruct (ExactFit.scaled_fit options bbox Hw Hh Hroom) as [Fw Fh].
  unfold availableWidth in Fw, Fh.
  cbn [num_two num_sub num_mul exactQ] in Fw, Fh.
  rewrite !ExactFit.half_mul.
  split; [lra|]. split; [lra|]. split; [lra|]. split; [lra|].
  split; intro Hc.
  - apply (ExactFit.ratio_gt_iff options bbox Hroom) in Hc.
    destruct (ExactFit.scaled_width_limited options bbox Hw Hroom Hc) as [E _].
    unfold availableWidth in E. cbn [num_two num_sub num_mul exactQ] in E.
    rewrite E. split; field.
  - assert (Hle : (symbolWidth bbox <= symbolHeight bbox)%Q).
    { apply Qnot_lt_le. intro Hlt.
      apply (ExactFit.ratio_gt_iff options bbox Hroom) in Hlt. congruence. }
    destruct (ExactFit.scaled_height_limited options bbox Hh Hroom Hle) as [E _].
    unfold availableWidth in E. cbn [num_two num_sub num_mul exactQ] in E.
    rewrite E. split; field.
Qed.

(** The default canvas and a box 100 by 50 away from the origin. *)
Lemma padding_is_kept_exact_witness :
  (30 < 130)%Q /\ (-(10) < 40)%Q /\ (2 * 2 < 24)%Q
  /\ exists lx ly hx hy : Q,
       applyTransformToPoint 30%Q (-(10))%Q
         (transformMatrix Examples.canvas24Q (Examples.box 30 (-(10)) 130 40)%Q)
       = Some (lx, ly)
       /\ applyTransformToPoint 130%Q 40%Q
            (transformMatrix Examples.canvas24Q (Examples.box 30 (-(10)) 130 40)%Q)
          = Some (hx, hy)
       /\ (2 <= lx)%Q /\ (hx <= 24 - 2)%Q /\ (2 <= ly)%Q /\ (hy <= 24 - 2)%Q.
Proof.
  do 3 (split; [reflexivity|]).
  destruct (padding_is_kept_exact Examples.canvas24Q
              (Examples.box 30 (-(10)) 130 40)%Q)
    as [lx [ly [hx [hy [E1 [E2 [B1 [B2 [B3 [B4 _]]]]]]]]]];
    try reflexivity.
  exists lx, ly, hx, hy. repeat split; assumption.
Defined.

Module ExactFitPosition.

Local Open Scope Q_scope.

Section Shift.

Variable options : GenerateSymbolOptions Q.
Variable bbox : BoundingBox Q.
Variables dx dy : Q.

Lemma shifted_width :
  symbolWidth {| x1 := x1 bbox + dx; y1 := y1 bbox + dy;
                 x2 := x2 bbox + dx; y2 := y2 bbox + dy |}
  == symbolWidth bbox.
Proof. unfold symbolWidth. cbn [num_sub exactQ x1 x2]. ring. Qed.

Lemma shifted_height :
  symbolHeight {| x1 := x1 bbox + dx; y1 := y1 bbox + dy;
                  x2 := x2 bbox + dx; y2 := y2 bbox + dy |}
  == symbolHeight bbox.
Proof. unfold symbolHeight. cbn [num_sub exactQ y1 y2]. ring. Qed.

Lemma shifted_scale :
  scale options {| x1 := x1 bbox + dx; y1 := y1 bbox + dy;
                   x2 := x2 bbox + dx; y2 := y2 bbox + dy |}
  == scale options bbox.
Proof.
  unfold scale, widthRatio, heightRatio. cbn [num_div exactQ].
  rewrite (ExactFitMore.num_gt_compat _ (symbolWidth bbox / availableWidth options)
             _ (symbolHeight bbox / availableHeight options)).
  - match goal with |- context [if ?test then _ else _] => destruct test end;
      [rewrite shifted_width | rewrite shifted_height]; reflexivity.
  - rewrite shifted_width. reflexivity.
  - rewrite shifted_height. reflexivity.
Qed.

End Shift.
End ExactFitPosition.

(** X10: with the formulas evaluated in exact arithmetic, where the box
    lies does not matter: moving the box by [(dx, dy)] leaves the scale as
    it is, and a point moved with the box has the same image. The
    hypotheses keep the divisors of the formulas away from zero. *)
Theorem position_does_not_matter_exact (options : GenerateSymbolOptions Q)
    (bbox : BoundingBox Q) (dx dy : Q) :
  (x1 bbox < x2 bbox)%Q -> (y1 bbox < y2 bbox)%Q ->
  (padding options * 2 < fontSize options)%Q ->
  (scale options {| x1 := x1 bbox + dx; y1 := y1 bbox + dy;
                    x2 := x2 bbox + dx; y2 := y2 bbox + dy |}
   == scale options bbox)%Q
  /\ forall x y : Q,
       exists px py qx qy : Q,
         applyTransformToPoint (x + dx)%Q (y + dy)%Q
           (transformMatrix options
              {| x1 := x1 bbox + dx; y1 := y1 bbox + dy;
                 x2 := x2 bbox + dx; y2 := y2 bbox + dy |})%Q
         = Some (px, py)
         /\ applyTransformToPoint x y (transformMatrix options bbox)
            = Some (qx, qy)
         /\ (px == qx)%Q /\ (py == qy)%Q.
Proof.
  intros _ _ _.
  pose proof (ExactFitPosition.shifted_scale options bbox dx dy) as Hs.
  split; [exact Hs|].
  intros x y. rewrite !applyTransformToPoint_matrix. do 4 eexists.
  split; [reflexivity|]. split; [reflexivity|].
  unfold translateX, translateY, scaledWidth, scaledHeight.
  cbn [num_zero num_two num_add num_sub num_mul num_div exactQ x1 y1].
  rewrite Hs, (ExactFitPosition.shifted_width bbox dx dy),
    (ExactFitPosition.shifted_height bbox dx dy).
  split; field.
Qed.

(** The box 100 by 50 at the origin, moved by (30, -10). *)
Lemma position_does_not_matter_exact_witness :
  (0 < 100)%Q /\ (0 < 50)%Q /\ (2 * 2 < 24)%Q
  /\ (scale Examples.canvas24Q
        {| x1 := 0 + 30; y1 := 0 + -(10); x2 := 100 + 30; y2 := 50 + -(10) |}
      == scale Examples.canvas24Q (Examples.box 0 0 100 50))%Q.
Proof.
  do 3 (split; [reflexivity|]).
  refine (proj1 (position_does_not_matter_exact Examples.canvas24Q
                   (Examples.box 0 0 100 50)%Q 30 (-(10)) _ _ _));
    reflexivity.
Defined.

Module ExactFitAgain.

Local Open Scope Q_scope.

Section Image.

Variable options : GenerateSymbolOptions Q.
Variable bbox : BoundingBox Q.
Hypothesis width_pos : x1 bbox < x2 bbox.
Hypothesis height_pos : y1 bbox < y2 bbox.
Hypothesis room : padding options * 2 < fontSize options.

Lemma image_width : symbolWidth (Reference.imageBox options bbox) == scaledWidth options bbox.
Proof.
  unfold symbolWidth, Reference.imageBox, scaledWidth, symbolWidth.
  cbn [num_zero num_add num_sub num_mul exactQ x1 x2]. ring.
Qed.

Lemma image_height : symbolHeight (Reference.imageBox options bbox) == scaledHeight options bbox.
Proof.
  unfold symbolHeight, Reference.imageBox, scaledHeight, symbolHeight.
  cbn [num_zero num_add num_sub num_mul exactQ y1 y2]. ring.
Qed.

(** The image fills the padded area on its limiting dimension, so fitting
    it again scales by one. *)
Lemma image_scale : scale options (Reference.imageBox options bbox) == 1.
Proof.
  pose proof (ExactFit.scale_pos options bbox width_pos height_pos room) as Hs.
  pose proof (ExactFit.available_pos options room) as HA.
  destruct (Qlt_le_dec (symbolHeight bbox) (symbolWidth bbox)) as [Hc|Hc].
  - destruct (ExactFit.scaled_width_limited options bbox width_pos room Hc)
      as [E _].
    assert (Hc' : symbolHeight (Reference.imageBox options bbox) < symbolWidth (Reference.imageBox options bbox)).
    { rewrite image_width, image_height.
      unfold scaledWidth, scaledHeight. cbn [num_mul exactQ].
      apply Qmult_lt_r; assumption. }
    rewrite (ExactFit.scale_width_limited options (Reference.imageBox options bbox) room Hc').
    rewrite image_width, E. field. lra.
  - destruct (ExactFit.scaled_height_limited options bbox height_pos room Hc)
      as [E _].
    assert (Hc' : symbolWidth (Reference.imageBox options bbox) <= symbolHeight (Reference.imageBox options bbox)).
    { rewrite image_width, image_height.
      unfold scaledWidth, scaledHeight. cbn [num_mul exactQ].
      apply Qmult_le_compat_r; [exact Hc | lra]. }
    rewrite (ExactFit.scale_height_limited options (Reference.imageBox options bbox) room Hc').
    change (availableHeight options) with (availableWidth options).
    rewrite image_height, E. field. lra.
Qed.

Lemma image_translate :
  translateX options (Reference.imageBox options bbox) == 0 /\ translateY options (Reference.imageBox options bbox) == 0.
Proof.
  pose proof image_scale as Hs.
  unfold translateX, translateY, scaledWidth, scaledHeight.
  cbn [num_two num_sub num_mul num_div exactQ].
  rewrite Hs, image_width, image_height.
  destruct (ExactFitMore.lower_corner options bbox) as [Lx Ly].
  change (x1 (Reference.imageBox options bbox))
    with (scale options bbox * x1 bbox + 0 * y1 bbox + translateX options bbox).
  change (y1 (Reference.imageBox options bbox))
    with (0 * x1 bbox + scale options bbox * y1 bbox + translateY options bbox).
  rewrite Lx, Ly. split; field.
Qed.

End Image.
End ExactFitAgain.

(** X11: with the formulas evaluated in exact arithmetic, fitting is done
    once: the box made of the images of the corners is fitted by the
    identity. Its corners are the images [applyTransformToPoint] gives, the
    transform computed for it has scale one and translations zero, and every
    point is its own image under that transform. The hypotheses keep the
    divisors of the formulas away from zero. *)
Theorem fitted_box_is_fixed_exact (options : GenerateSymbolOptions Q)
    (bbox : BoundingBox Q) :
  (x1 bbox < x2 bbox)%Q ->
  (y1 bbox < y2 bbox)%Q ->
  (padding options * 2 < fontSize options)%Q ->
  let image := Reference.imageBox options bbox in
  applyTransformToPoint (x1 bbox) (y1 bbox) (transformMatrix options bbox)
  = Some (x1 image, y1 image)
  /\ applyTransformToPoint (x2 bbox) (y2 bbox) (transformMatrix options bbox)
     = Some (x2 image, y2 image)
  /\ (scale options image == 1)%Q
  /\ (translateX options image == 0)%Q
  /\ (translateY options image == 0)%Q
  /\ forall x y : Q,
       exists x' y',
         applyTransformToPoint x y (transformMatrix options image)
         = Some (x', y')
         /\ (x' == x)%Q /\ (y' == y)%Q.
Proof.
  intros Hw Hh Hroom image.
  pose proof (ExactFitAgain.image_scale options bbox Hw Hh Hroom) as Hs.
  destruct (ExactFitAgain.image_translate options bbox Hw Hh Hroom)
    as [Hx Hy].
  fold image in Hs, Hx, Hy.
  split; [reflexivity|]. split; [reflexivity|].
  split; [exact Hs|]. split; [exact Hx|]. split; [exact Hy|].
  intros x y. eexists. eexists. split; [reflexivity|].
  cbn [num_zero num_add num_mul exactQ].
  rewrite Hs, Hx, Hy. split; ring.
Qed.

Lemma fitted_box_is_fixed_exact_witness :
  (scale Examples.canvas24Q
     (Reference.imageBox Examples.canvas24Q
        (Examples.box 30 (-(10)) 130 40)%Q) == 1)%Q
  /\ (translateX Examples.canvas24Q
        (Reference.imageBox Examples.canvas24Q
           (Examples.box 30 (-(10)) 130 40)%Q) == 0)%Q
  /\ (translateY Examples.canvas24Q
        (Reference.imageBox Examples.canvas24Q
           (Examples.box 30 (-(10)) 130 40)%Q) == 0)%Q.
Proof.
  destruct (fitted_box_is_fixed_exact Examples.canvas24Q
              (Examples.box 30 (-(10)) 130 40)%Q)
    as (_ & _ & Hs & Hx & Hy & _).
  - reflexivity.
  - reflexivity.
  - reflexivity.
  - split; [exact Hs|]. split; [exact Hx | exact Hy].
Defined.

Module FontFacts.

Section Loading.

Context {num : Type}.
Variable pathJoin : string -> string -> string.
Variable fileExists : string -> bool.
Variable load : string -> Exec (Font num).
Variable fontsDir : string.

(** What the function mapped over the weights returns for one weight. *)
Lemma loadWeight_inModel (w : string) :
  Fonts.inModel w = true ->
  exists item,
    Fonts.loadWeight pathJoin fileExists load fontsDir w = Some item
    /\ match item with
       | Some vf =>
           Fonts.loadable pathJoin fileExists load fontsDir w = true
           /\ weight vf = w
           /\ exists cap,
                Fonts.capitalize w = Some cap
                /\ fileExists
                     (pathJoin fontsDir ("SF-Pro-Text-" ++ cap ++ ".otf")%string)
                   = true
                /\ load (pathJoin fontsDir ("SF-Pro-Text-" ++ cap ++ ".otf")%string)
                   = Ok (font vf)
       | None => Fonts.loadable pathJoin fileExists load fontsDir w = false
       end.
Proof.
  unfold Fonts.inModel, Fonts.loadWeight, Fonts.findFontFile, Fonts.loadable,
    Fonts.fontName.
  destruct (Fonts.capitalize w) as [cap|]; [intros _ | discriminate].
  cbn [option_map].
  destruct (fileExists (pathJoin fontsDir ("SF-Pro-Text-" ++ cap ++ ".otf")%string))
    eqn:Hexists.
  - destruct (JsString.truthy
                (pathJoin fontsDir ("SF-Pro-Text-" ++ cap ++ ".otf")%string))
      eqn:Htruthy.
    + destruct (load (pathJoin fontsDir ("SF-Pro-Text-" ++ cap ++ ".otf")%string))
        as [f|e] eqn:Hload.
      * eexists. split; [reflexivity|]. cbn [weight font andb].
        split; [reflexivity|]. split; [reflexivity|].
        exists cap. split; [reflexivity|]. split; [exact Hexists|exact Hload].
      * eexists. split; [reflexivity|]. reflexivity.
    + eexists. split; [reflexivity|]. reflexivity.
  - eexists. split; [reflexivity|]. reflexivity.
Qed.

Lemma loadFonts_inModel (weights : list string) :
  forallb Fonts.inModel weights = true ->
  exists validFonts,
    Fonts.loadFonts pathJoin fileExists load fontsDir weights
    = Some validFonts
    /\ map weight validFonts
       = filter (Fonts.loadable pathJoin fileExists load fontsDir) weights
    /\ forall vf, In vf validFonts ->
         exists cap,
           Fonts.capitalize (weight vf) = Some cap
           /\ fileExists (pathJoin fontsDir ("SF-Pro-Text-" ++ cap ++ ".otf")%string)
              = true
           /\ load (pathJoin fontsDir ("SF-Pro-Text-" ++ cap ++ ".otf")%string)
              = Ok (font vf).
Proof.
  induction weights as [|w rest IH]; intros Hall.
  - exists []. split; [reflexivity|]. split; [reflexivity|].
    intros vf [].
  - cbn [forallb] in Hall. apply andb_true_iff in Hall as [Hw Hrest].
    destruct (IH Hrest) as (more & Hmore & Hweights & Hfonts).
    destruct (loadWeight_inModel w Hw) as (item & Hitem & Hcase).
    cbn [Fonts.loadFonts filter]. rewrite Hitem, Hmore.
    destruct item as [vf|].
    + destruct Hcase as (Hloadable & Hweight & Hfont).
      rewrite Hloadable. exists (vf :: more). split; [reflexivity|].
      split.
      * cbn [map]. rewrite Hweight, Hweights. reflexivity.
      * intros vf' [<-|Hin]; [| apply Hfonts; exact Hin].
        rewrite Hweight. exact Hfont.
    + rewrite Hcase. exists more. split; [reflexivity|].
      split; [exact Hweights | exact Hfonts].
Qed.

End Loading.

End FontFacts.

(** X12: the fonts a run goes on with. For weights whose first unit has
    its capital within the model, the valid fonts are, in the order of the
    weights, those of the weights whose file
    [SF-Pro-Text-<Weight>.otf] (the weight with its first unit
    capitalized, the rest as given) is found in the fonts directory and
    loads; each is kept with its weight as given; the others are dropped
    without stopping the run; and the run throws exactly when no weight is
    left. *)
Theorem valid_fonts_are_the_loadable_weights {num : Type}
    (pathJoin : string -> string -> string) (fileExists : string -> bool)
    (load : string -> Exec (Font num)) (fontsDir : string)
    (weights : list string) :
  forallb Fonts.inModel weights = true ->
  exists validFonts,
    Fonts.loadFonts pathJoin fileExists load fontsDir weights
    = Some validFonts
    /\ map weight validFonts
       = filter (Fonts.loadable pathJoin fileExists load fontsDir) weights
    /\ (forall vf, In vf validFonts ->
          exists cap,
            Fonts.capitalize (weight vf) = Some cap
            /\ fileExists
                 (pathJoin fontsDir ("SF-Pro-Text-" ++ cap ++ ".otf")%string)
               = true
            /\ load (pathJoin fontsDir ("SF-Pro-Text-" ++ cap ++ ".otf")%string)
               = Ok (font vf))
    /\ Fonts.validFontsOrThrow pathJoin fileExists load fontsDir weights
       = Some
           (match
              filter (Fonts.loadable pathJoin fileExists load fontsDir)
                weights
            with
            | [] =>
                Thrown
                  "No valid fonts were loaded. Please check the weights and font files."
            | _ :: _ => Ok validFonts
            end).
Proof.
  intros Hall.
  destruct (FontFacts.loadFonts_inModel pathJoin fileExists load fontsDir
              weights Hall) as (validFonts & Hload & Hweights & Hfonts).
  exists validFonts. split; [exact Hload|]. split; [exact Hweights|].
  split; [exact Hfonts|].
  unfold Fonts.validFontsOrThrow. rewrite Hload. cbn [option_map].
  rewrite <- Hweights. destruct validFonts; reflexivity.
Qed.

Lemma valid_fonts_are_the_loadable_weights_witness :
  exists validFonts,
    Fonts.loadFonts (fun dir name => (dir ++ "/" ++ name)%string)
      (fun p => String.eqb p "fonts/SF-Pro-Text-UltraLight.otf"
                || String.eqb p "fonts/SF-Pro-Text-Bold.otf")
      (fun p => if String.eqb p "fonts/SF-Pro-Text-Bold.otf"
                then Ok (@Examples.emptyFont float)
                else Thrown "not a font")
      "fonts" ["thin"; "ultraLight"; "bold"]
    = Some validFonts
    /\ map weight validFonts = ["bold"].
Proof.
  destruct (valid_fonts_are_the_loadable_weights
              (fun dir name => (dir ++ "/" ++ name)%string)
              (fun p => String.eqb p "fonts/SF-Pro-Text-UltraLight.otf"
                        || String.eqb p "fonts/SF-Pro-Text-Bold.otf")
              (fun p => if String.eqb p "fonts/SF-Pro-Text-Bold.otf"
                        then Ok (@Examples.emptyFont float)
                        else Thrown "not a font")
              "fonts" ["thin"; "ultraLight"; "bold"])
    as (validFonts & Hload & Hweights & _).
  - reflexivity.
  - exists validFonts. split; [exact Hload | exact Hweights].
Defined.

Module CapitalFacts.

(** The capital of a unit starts with a unit that is its own capital. *)
Lemma toUpperCaseUnit_capital (c : ascii) (u : string) :
  Fonts.toUpperCaseUnit c = Some u ->
  exists c' t,
    u = String c' t
    /\ Fonts.toUpperCaseUnit c' = Some (String c' EmptyString).
Proof.
  intro E.
  destruct c as [[] [] [] [] [] [] [] []]; vm_compute in E;
    try discriminate E; injection E as <-;
    eexists; eexists; (split; [reflexivity|]); vm_compute; reflexivity.
Qed.

Lemma capitalize_fixed (w cap : string) :
  Fonts.capitalize w = Some cap -> Fonts.capitalize cap = Some cap.
Proof.
  destruct w as [|c r]; cbn [Fonts.capitalize].
  - intro E. injection E as <-. reflexivity.
  - destruct (Fonts.toUpperCaseUnit c) as [u|] eqn:Hu; [|discriminate].
    cbn [option_map]. intro E. injection E as <-.
    destruct (toUpperCaseUnit_capital c u Hu) as (c' & t & -> & Hc').
    cbn [append Fonts.capitalize]. rewrite Hc'. reflexivity.
Qed.

Lemma app_inv_head (s t1 t2 : string) :
  (s ++ t1 = s ++ t2)%string -> t1 = t2.
Proof.
  induction s as [|c r IH]; cbn [append]; intro E.
  - exact E.
  - injection E as E. apply IH. exact E.
Qed.

(** With the name fixed, the file name tells the weight. *)
Lemma createSvgFilename_weight (name w1 w2 : string) :
  createSvgFilename name w1 = createSvgFilename name w2 -> w1 = w2.
Proof.
  destruct (FilenameInjective.createSvgFilename_suffix name w1)
    as (s1 & -> & H1).
  destruct (FilenameInjective.createSvgFilename_suffix name w2)
    as (s2 & -> & H2).
  intro E. apply app_inv_head in E.
  destruct H1 as [[W1 ->]|[W1 ->]], H2 as [[W2 ->]|[W2 ->]].
  - congruence.
  - discriminate E.
  - discriminate E.
  - cbn [append] in E. injection E as E.
    apply FilenameInjective.app_inv_tail in E. exact E.
Qed.

End CapitalFacts.

(** X13: the case of the first unit of a weight matters for the files
    written, not for the font read. A weight and its capitalized form look
    for the same font file, so one has a font exactly when the other has;
    the file names written for them differ unless the two weights are the
    same string. *)
Theorem capitalized_weight_reads_same_font {num : Type}
    (pathJoin : string -> string -> string) (fileExists : string -> bool)
    (load : string -> Exec (Font num)) (fontsDir : string)
    (w cap : string) :
  Fonts.capitalize w = Some cap ->
  Fonts.capitalize cap = Some cap
  /\ Fonts.findFontFile pathJoin fileExists fontsDir cap
     = Fonts.findFontFile pathJoin fileExists fontsDir w
  /\ Fonts.loadable pathJoin fileExists load fontsDir cap
     = Fonts.loadable pathJoin fileExists load fontsDir w
  /\ forall name,
       createSvgFilename name cap = createSvgFilename name w -> cap = w.
Proof.
  intro Hcap. pose proof (CapitalFacts.capitalize_fixed w cap Hcap) as Hfixed.
  split; [exact Hfixed|].
  unfold Fonts.findFontFile, Fonts.loadable, Fonts.fontName.
  rewrite Hcap, Hfixed.
  split; [reflexivity|]. split; [reflexivity|].
  intros name. apply CapitalFacts.createSvgFilename_weight.
Qed.

Lemma capitalized_weight_reads_same_font_witness :
  Fonts.capitalize "bold" = Some "Bold"
  /\ Fonts.findFontFile (fun dir name => (dir ++ "/" ++ name)%string)
       (fun p => String.eqb p "fonts/SF-Pro-Text-Bold.otf") "fonts" "Bold"
     = Fonts.findFontFile (fun dir name => (dir ++ "/" ++ name)%string)
         (fun p => String.eqb p "fonts/SF-Pro-Text-Bold.otf") "fonts" "bold"
  /\ createSvgFilename "star" "Bold" = "star-Bold.svg"
  /\ createSvgFilename "star" "bold" = "star-bold.svg".
Proof.
  split; [reflexivity|].
  destruct (capitalized_weight_reads_same_font
              (fun dir name => (dir ++ "/" ++ name)%string)
              (fun p => String.eqb p "fonts/SF-Pro-Text-Bold.otf")
              (fun _ => Ok (@Examples.emptyFont float))
              "fonts" "bold" "Bold" eq_refl)
    as (_ & Hfile & _ & _).
  split; [exact Hfile|]. split; reflexivity.
Defined.
